(** * The lexicon store and its server actions (src/lib/actions.ts)

    A shallow embedding of the five server actions [addWord],
    [addDefinition], [addExample], [addMention] and [Report], of the
    helper [reportElement], and of the zod schemas they validate their
    form data with; and of what the components [AddWordForm]
    (src/components/forms/add-word-form.tsx) and [RootLayout]
    (src/app/layout.tsx) show of the state of an action and of the session.

    Conventions of the model.
    - A JavaScript string is a [string]; the model covers ASCII text, on
      which [toLowerCase] maps the letters A-Z to a-z and [length] counts
      characters.
    - A JavaScript number is a [Z] (scores are small integers; the
      floating-point representation is not modelled).
    - An action is a function from the store to a result and the store it
      leaves behind; a JavaScript exception is an explicit error value, and
      [try_catch] keeps the store as it was when the exception was thrown.
    - The storage medium is reliable: the only exceptions are those that
      the code of the actions itself raises. *)

From Stdlib Require Import ZArith String Ascii List Bool Lia.
From stdpp Require Import base option list strings gmap.
Import ListNotations.

Local Open Scope string_scope.
Local Open Scope Z_scope.

(** ** JavaScript strings *)

Module Js.

(** [c.toLowerCase()] on one ASCII character. *)
Definition lower_ascii (c : ascii) : ascii :=
  let n := nat_of_ascii c in
  if (65 <=? n)%nat && (n <=? 90)%nat then ascii_of_nat (n + 32) else c.

(** [s.toLowerCase()], on ASCII text: the letters A-Z become a-z and every
    other character is kept.  The lowercasing of the letters of other
    scripts, which can also change the length of a text, is outside the
    model; what is proved below uses of lowercasing only that it is
    idempotent and keeps a text that is not empty non-empty. *)
Fixpoint toLowerCase (s : string) : string :=
  match s with
  | EmptyString => EmptyString
  | String c s' => String (lower_ascii c) (toLowerCase s')
  end.

(** [s.slice(b, e)] for [0 <= b <= e]. *)
Definition slice (b e : nat) (s : string) : string :=
  String.substring b (e - b) s.

(** [s.startsWith(p)]. *)
Definition startsWith (p s : string) : bool := String.prefix p s.

(** Truthiness of a string: only the empty string is falsy. *)
Definition truthy (s : string) : bool :=
  match s with
  | EmptyString => false
  | String _ _ => true
  end.

(** Truthiness of [o.text] where [o] may lack the property. *)
Definition truthy_opt (s : option string) : bool :=
  match s with
  | Some s => truthy s
  | None => false
  end.

(** String conversion in a concatenation: a missing property prints as
    [undefined]. *)
Definition to_string (s : option string) : string :=
  match s with
  | Some s => s
  | None => "undefined"
  end.

(** [a.includes(x)] on an array of strings. *)
Definition includes (a : list string) (x : string) : bool :=
  existsb (String.eqb x) a.

(** The exceptions the actions can raise. *)
Inductive Exception : Type :=
| ReferenceError (name : string)
| TypeError (what : string)
| Error (msg : string).

(** [a.findIndex(f)], with a callback that may throw: the first callback
    call that throws ends the scan, and the result is -1 when no element
    satisfies [f]. *)
Fixpoint findIndex_from {A} (f : A -> Exception + bool) (a : list A) (i : Z)
  : Exception + Z :=
  match a with
  | [] => inr (-1)
  | x :: a' =>
      match f x with
      | inl e => inl e
      | inr true => inr i
      | inr false => findIndex_from f a' (i + 1)
      end
  end.

Definition findIndex {A} (f : A -> Exception + bool) (a : list A)
  : Exception + Z :=
  findIndex_from f a 0.

(** [a[i]] for a number [i]: [undefined] outside [0 .. a.length - 1]. *)
Definition index {A} (a : list A) (i : Z) : option A :=
  if i <? 0 then None else a !! Z.to_nat i.

End Js.

(** ** Record types

    [@/lib/types], which declares [Word], [Definition], [Example] and
    [Mention], is not among the sources.  The four records have the fields
    of the data model, under the names of the object literals that the
    actions build; every record carries the score pair [V] (approvals) and
    [NV] (disapprovals). *)

(** Modelled from the spec: the type [Definition] of the missing
    [@/lib/types], a text and a reference with the score pair. *)
Record Definition_ : Type := mkDefinition
  { def_text : string; def_reference : string; def_V : Z; def_NV : Z }.

(** Modelled from the spec: the type [Example] of the missing
    [@/lib/types], a text and a reference with the score pair. *)
Record Example_ : Type := mkExample
  { ex_text : string; ex_reference : string; ex_V : Z; ex_NV : Z }.

(** Modelled from the spec: the type [Mention] of the missing
    [@/lib/types] (the citation of the data model), a title and a
    hyperlink with the score pair. *)
Record Mention : Type := mkMention
  { men_title : string; men_hyperlink : string; men_V : Z; men_NV : Z }.

(** Modelled from the spec: the type [Word] of the missing [@/lib/types],
    a text, the three ordered collections and the score pair. *)
Record Word : Type := mkWord
  { text : string;
    definitions : list Definition_;
    examples : list Example_;
    mentions : list Mention;
    V : Z;
    NV : Z }.

(** The scored unit that the four record types share. *)
Class Scored (A : Type) : Type :=
  { approvals : A -> Z; disapprovals : A -> Z }.

#[export] Instance Definition_scored : Scored Definition_ :=
  {| approvals := def_V; disapprovals := def_NV |}.
#[export] Instance Example_scored : Scored Example_ :=
  {| approvals := ex_V; disapprovals := ex_NV |}.
#[export] Instance Mention_scored : Scored Mention :=
  {| approvals := men_V; disapprovals := men_NV |}.
#[export] Instance Word_scored : Scored Word :=
  {| approvals := V; disapprovals := NV |}.

(** ** The result of an action: [State] *)

Inductive MessageType : Type := success | warning | error.

Record Message : Type := mkMessage
  { msg_text : string; msg_type : MessageType }.

(** One entry of [fieldErrors]: a zod issue, kept as its issue code, or a
    message the action wrote itself. *)
Inductive FieldError : Type :=
| invalid_type
| too_small (minimum : nat)
| too_big (maximum : nat)
| invalid_string (msg : string)
| custom (msg : string).

Definition FieldErrors : Type := list (string * list FieldError).

Record State : Type := mkState
  { message : Message; errors : option FieldErrors }.

(** ** Form data *)

(** [FormDataEntryValue]: a string or a file. *)
Inductive FormDataEntryValue : Type :=
| FString (s : string)
| FFile (name : string).

Definition FormData : Type := list (string * FormDataEntryValue).

(** [formData.get(name)]: the first value of that name, or [null]. *)
Fixpoint FormData_get (formData : FormData) (name : string)
  : option FormDataEntryValue :=
  match formData with
  | [] => None
  | (k, v) :: rest =>
      if String.eqb k name then Some v else FormData_get rest name
  end.

(** ** The zod schemas *)

Module Zod.

Inductive Check : Type :=
| min (n : nat)
| max (n : nat)
| startsWith (p : string) (msg : string).

(** [z.string()] followed by its checks. *)
Definition StringSchema : Type := list Check.

Definition ObjectSchema : Type := list (string * StringSchema).

Definition run_check (s : string) (c : Check) : list FieldError :=
  match c with
  | min n => if (n <=? String.length s)%nat then [] else [too_small n]
  | max n => if (String.length s <=? n)%nat then [] else [too_big n]
  | startsWith p msg => if Js.startsWith p s then [] else [invalid_string msg]
  end.

(** Parsing one property: a value that is not a string is an
    [invalid_type] issue and the checks are not run; on a string every
    check runs and the issues accumulate. *)
Definition parse_string (checks : StringSchema)
    (v : option FormDataEntryValue) : list FieldError + string :=
  match v with
  | Some (FString s) =>
      match flat_map (run_check s) checks with
      | [] => inr s
      | issues => inl issues
      end
  | _ => inl [invalid_type]
  end.

(** [schema.pick({k1: true, ...})]. *)
Definition pick (keys : list string) (schema : ObjectSchema) : ObjectSchema :=
  List.filter (fun '(k, _) => Js.includes keys k) schema.

Definition Object : Type := list (string * option FormDataEntryValue).

Fixpoint prop (o : Object) (k : string) : option FormDataEntryValue :=
  match o with
  | [] => None
  | (k', v) :: rest => if String.eqb k' k then v else prop rest k
  end.

(** The parsed object, [valFields.data]. *)
Definition Data : Type := list (string * string).

(** [data.k]; the actions read only properties of the schema. *)
Fixpoint field (data : Data) (k : string) : string :=
  match data with
  | [] => ""
  | (k', s) :: rest => if String.eqb k' k then s else field rest k
  end.

Fixpoint parse_props (schema : ObjectSchema) (o : Object)
  : FieldErrors * Data :=
  match schema with
  | [] => ([], [])
  | (k, checks) :: rest =>
      let '(errs, data) := parse_props rest o in
      match parse_string checks (prop o k) with
      | inl issues => ((k, issues) :: errs, data)
      | inr s => (errs, (k, s) :: data)
      end
  end.

(** [schema.safeParse(o)]: [inl] holds [error.flatten().fieldErrors],
    [inr] holds [data]. *)
Definition safeParse (schema : ObjectSchema) (o : Object)
  : FieldErrors + Data :=
  match parse_props schema o with
  | ([], data) => inr data
  | (errs, _) => inl errs
  end.

End Zod.

Definition formSchema : Zod.ObjectSchema :=
  [ ("word_text", [Zod.min 2; Zod.max 50]);
    ("def_content", [Zod.min 10; Zod.max 255]);
    ("def_reference", [Zod.min 10; Zod.max 45]);
    ("example_text", [Zod.min 10; Zod.max 145]);
    ("example_reference", [Zod.max 45]);
    ("mention_title", [Zod.min 10; Zod.max 45]);
    ("mention_hyperlink", [Zod.startsWith "https://" "Must provide secure URL"]);
    ("report_element", []) ].

Definition addDefinitionSchema : Zod.ObjectSchema :=
  Zod.pick ["word_text"; "def_content"; "def_reference"] formSchema.
Definition addExampleSchema : Zod.ObjectSchema :=
  Zod.pick ["word_text"; "example_text"; "example_reference"] formSchema.
Definition addMentionSchema : Zod.ObjectSchema :=
  Zod.pick ["word_text"; "mention_title"; "mention_hyperlink"] formSchema.
Definition reportSchema : Zod.ObjectSchema :=
  Zod.pick ["word_text"; "report_element"] formSchema.

(** ** The shard and the store *)

Module Shard.

(** Modelled from the spec: the shard type of [@/lib/db] is not among the
    sources.  A shard is the ordered sequence of the Words of one shard
    key, in insertion order. *)
Abbreviation t := (list Word).

(** Modelled from the spec: [append(word)] of the missing [@/lib/db]
    adds [word] at the end and performs no uniqueness check. *)
Definition append (word : Word) (sh : t) : t := (sh ++ [word])%list.

(** Modelled from the spec: [findFirst(predicate)] of the missing
    [@/lib/db] scans in insertion order and returns the first Word that
    satisfies the predicate. *)
Fixpoint findFirst (predicate : Word -> bool) (sh : t) : option Word :=
  match sh with
  | [] => None
  | w :: sh' => if predicate w then Some w else findFirst predicate sh'
  end.

(** Modelled from the spec: [indexOf(predicate)] of the missing
    [@/lib/db] has the semantics of [findFirst] and returns positions;
    the code reads element [0] of its result, so the result is the
    sequence of the matching positions, first match first. *)
Fixpoint indexOf_from (predicate : Word -> bool) (sh : t) (i : nat)
  : list nat :=
  match sh with
  | [] => []
  | w :: sh' =>
      if predicate w then i :: indexOf_from predicate sh' (S i)
      else indexOf_from predicate sh' (S i)
  end.

Definition indexOf (predicate : Word -> bool) (sh : t) : list nat :=
  indexOf_from predicate sh 0.

(** Modelled from the spec: [updateAt(index, updateFn)] of the missing
    [@/lib/db] replaces the Word at [index] with [updateFn(currentWord)]
    and fails with [IndexOutOfRange] ([None]) on an invalid index. *)
Definition updateAt (i : nat) (updateFn : Word -> Word) (sh : t) : option t :=
  match sh !! i with
  | Some w => Some (<[i := updateFn w]> sh)
  | None => None
  end.

(** Modelled from the spec: [updateWhere(predicate, updateFn)] of the
    missing [@/lib/db] locates the first match as [findFirst] does and
    applies [updateFn] to it; nothing happens when nothing matches. *)
Fixpoint updateWhere (predicate : Word -> bool) (updateFn : Word -> Word)
    (sh : t) : t :=
  match sh with
  | [] => []
  | w :: sh' =>
      if predicate w then updateFn w :: sh'
      else w :: updateWhere predicate updateFn sh'
  end.

End Shard.

(** Modelled from the spec: the store behind [getDB()] of the missing
    [@/lib/db] holds the live shards by shard key. *)
Abbreviation Store := (gmap string Shard.t).

(** The Words of the shard of [key]; a shard with no storage yet holds none. *)
Definition contents (key : string) (st : Store) : Shard.t :=
  default [] (st !! key).

(** ** Actions: store passing with exceptions *)

Definition Action (A : Type) : Type := Store -> (Js.Exception + A) * Store.

Definition ret {A} (a : A) : Action A := fun st => (inr a, st).

Definition bind {A B} (m : Action A) (k : A -> Action B) : Action B :=
  fun st =>
    match m st with
    | (inr a, st') => k a st'
    | (inl e, st') => (inl e, st')
    end.

Definition lift {A} (r : Js.Exception + A) : Action A := fun st => (r, st).

Declare Scope action_scope.
Delimit Scope action_scope with action.
Notation "x <- m ;; k" := (bind m (fun x => k))
  (at level 100, m at next level, right associativity) : action_scope.
Notation "m ;;; k" := (bind m (fun _ => k))
  (at level 100, right associativity) : action_scope.

(** [try { body } catch (err) { console.error(...); return handler }]. *)
Definition try_catch (body : Action State) (handler : Js.Exception -> State)
  : Store -> State * Store :=
  fun st =>
    match body st with
    | (inr s, st') => (s, st')
    | (inl e, st') => (handler e, st')
    end.

(** The methods of a shard handle [sf], which is named by its key. *)
Module SF.

(** Modelled from the spec: [shardFor(key)], the [get] of the missing
    [@/lib/db], always succeeds and creates the shard's storage if it is
    absent. *)
Definition getDB_get (key : string) : Action string :=
  fun st =>
    match st !! key with
    | Some _ => (inr key, st)
    | None => (inr key, <[key := []]> st)
    end.

(** Modelled from the spec: [sf.getWhere(predicate)] of the missing
    [@/lib/db] is [findFirst] on the Words of the shard. *)
Definition getWhere (sf : string) (predicate : Word -> bool)
  : Action (option Word) :=
  fun st => (inr (Shard.findFirst predicate (contents sf st)), st).

(** Modelled from the spec: [sf.add(word)] of the missing [@/lib/db] is
    [append], persisted in the shard.  The write always succeeds here: a
    storage fault, which would end in the [catch] block of the action, is
    outside the model. *)
Definition add (sf : string) (word : Word) : Action unit :=
  fun st => (inr tt, <[sf := Shard.append word (contents sf st)]> st).

(** Modelled from the spec: [sf.getIndexOf(predicate)] of the missing
    [@/lib/db] is [indexOf] on the Words of the shard. *)
Definition getIndexOf (sf : string) (predicate : Word -> bool)
  : Action (list nat) :=
  fun st => (inr (Shard.indexOf predicate (contents sf st)), st).

(** Modelled from the spec: [sf.get(index)] of the missing [@/lib/db]
    reads the Word at a position; no record comes back for [undefined] or
    for a position that holds none, which the caller sees as a word that
    is absent. *)
Definition get (sf : string) (index : option nat) : Action (option Word) :=
  fun st => (inr (i ← index; contents sf st !! i), st).

(** Modelled from the spec: [sf.update(index, updateFn)] of the missing
    [@/lib/db] is [updateAt], persisted in the shard; an invalid index is
    an exception. *)
Definition update (sf : string) (index : option nat)
    (updateFn : Word -> Word) : Action unit :=
  fun st =>
    match i ← index; Shard.updateAt i updateFn (contents sf st) with
    | Some sh => (inr tt, <[sf := sh]> st)
    | None => (inl (Js.Error "IndexOutOfRange"), st)
    end.

(** Modelled from the spec: [sf.updateWhere(predicate, updateFn)] of the
    missing [@/lib/db] is [updateWhere], persisted in the shard. *)
Definition updateWhere (sf : string) (predicate : Word -> bool)
    (updateFn : Word -> Word) : Action unit :=
  fun st =>
    (inr tt, <[sf := Shard.updateWhere predicate updateFn (contents sf st)]> st).

End SF.

(** ** The server actions *)

Local Open Scope action_scope.

Definition msg (t : string) (ty : MessageType) : State :=
  {| message := {| msg_text := t; msg_type := ty |}; errors := None |}.

Definition form_error (errs : FieldErrors) : State :=
  {| message := {| msg_text := "Error submitting the form!"; msg_type := error |};
     errors := Some errs |}.

(** The [catch] block of every action. *)
Definition something_went_wrong (err : Js.Exception) : State :=
  msg "Something went wrong!" error.

(** The [newWord] that [addWord] builds from the parsed fields. *)
Definition newWord (word_text def_content def_reference : string) : Word :=
  {| text := Js.toLowerCase word_text;
     definitions :=
       [ {| def_text := def_content; def_reference := def_reference;
            def_V := 1; def_NV := 0 |} ];
     examples := [ {| ex_text := ""; ex_reference := ""; ex_V := 1; ex_NV := 0 |} ];
     mentions := [ {| men_title := ""; men_hyperlink := ""; men_V := 1; men_NV := 0 |} ];
     V := 1;
     NV := 0 |}.

Definition addWord (formData : FormData) : Store -> State * Store :=
  let valFields :=
    Zod.safeParse addDefinitionSchema
      [ ("word_text", FormData_get formData "word_text");
        ("def_content", FormData_get formData "def_content");
        ("def_reference", FormData_get formData "def_reference") ] in
  match valFields with
  | inl fieldErrors => fun st => (form_error fieldErrors, st)
  | inr data =>
      let newWord :=
        newWord (Zod.field data "word_text") (Zod.field data "def_content")
          (Zod.field data "def_reference") in
      try_catch
        (sf <- SF.getDB_get (Js.slice 0 2 (text newWord)) ;;
         exists_ <- SF.getWhere sf (fun word => String.eqb (text word) (text newWord)) ;;
         if Js.truthy_opt (text <$> exists_) then
           ret {| message := {| msg_text := text newWord ++ " already exists.";
                                msg_type := warning |};
                  errors := Some [ ("word_text", [custom "word already exists"]) ] |}
         else
           SF.add sf newWord ;;;
           ret (msg (text newWord ++ " has been successfully added.") success))
        something_went_wrong
  end.

(** The records that [addDefinition], [addExample] and [addMention] build,
    and the patches they hand to [updateWhere], merged over the current
    Word. *)
Definition newDefinition (def_content def_reference : string) : Definition_ :=
  {| def_text := def_content; def_reference := def_reference;
     def_V := 1; def_NV := 0 |}.

Definition newExample (example_text example_reference : string) : Example_ :=
  {| ex_text := example_text; ex_reference := example_reference;
     ex_V := 1; ex_NV := 0 |}.

Definition newMention (mention_title mention_hyperlink : string) : Mention :=
  {| men_title := mention_title; men_hyperlink := mention_hyperlink;
     men_V := 1; men_NV := 0 |}.

Definition push_definition (def : Definition_) (prev : Word) : Word :=
  {| text := text prev;
     definitions := (definitions prev ++ [def])%list;
     examples := examples prev;
     mentions := mentions prev;
     V := V prev;
     NV := NV prev |}.

Definition push_example (exam : Example_) (prev : Word) : Word :=
  {| text := text prev;
     definitions := definitions prev;
     examples := (examples prev ++ [exam])%list;
     mentions := mentions prev;
     V := V prev;
     NV := NV prev |}.

Definition push_mention (mention : Mention) (prev : Word) : Word :=
  {| text := text prev;
     definitions := definitions prev;
     examples := examples prev;
     mentions := (mentions prev ++ [mention])%list;
     V := V prev;
     NV := NV prev |}.

(** [word.definitions.find(def => def.reference == reference)] is truthy. *)
Definition has_reference (reference : string) (word : Word) : bool :=
  bool_decide (is_Some (List.find
    (fun def => String.eqb (def_reference def) reference) (definitions word))).

Definition addDefinition (formData : FormData) : Store -> State * Store :=
  let valFields :=
    Zod.safeParse addDefinitionSchema
      [ ("word_text", FormData_get formData "word_text");
        ("def_content", FormData_get formData "def_content");
        ("def_reference", FormData_get formData "def_reference") ] in
  match valFields with
  | inl fieldErrors => fun st => (form_error fieldErrors, st)
  | inr data =>
      let newDefinition :=
        newDefinition (Zod.field data "def_content") (Zod.field data "def_reference") in
      try_catch
        (sf <- SF.getDB_get (Js.slice 0 2 (Zod.field data "word_text")) ;;
         exists_ <- SF.getWhere sf (has_reference (def_reference newDefinition)) ;;
         if Js.truthy_opt (text <$> exists_) then
           ret (msg "Failed: there is already a definition from the same reference included!"
                    error)
         else
           SF.updateWhere sf
             (fun word => String.eqb (text word) (Zod.field data "word_text"))
             (push_definition newDefinition) ;;;
           ret (msg "Your definition has been added successfully. Refresh the page and check it out."
                    success))
        something_went_wrong
  end.

Definition addExample (formData : FormData) : Store -> State * Store :=
  let valFields :=
    Zod.safeParse addExampleSchema
      [ ("word_text", FormData_get formData "word_text");
        ("example_text", FormData_get formData "example_text");
        ("example_reference", FormData_get formData "example_reference") ] in
  match valFields with
  | inl fieldErrors => fun st => (form_error fieldErrors, st)
  | inr data =>
      let newExample :=
        newExample (Zod.field data "example_text") (Zod.field data "example_reference") in
      try_catch
        (sf <- SF.getDB_get (Js.slice 0 2 (Zod.field data "word_text")) ;;
         SF.updateWhere sf
           (fun word => String.eqb (text word) (Zod.field data "word_text"))
           (push_example newExample) ;;;
         ret (msg "The example has been added successfully. Refresh the page and check it out."
                  success))
        something_went_wrong
  end.

Definition addMention (formData : FormData) : Store -> State * Store :=
  let valFields :=
    Zod.safeParse addMentionSchema
      [ ("word_text", FormData_get formData "word_text");
        ("mention_title", FormData_get formData "mention_title");
        ("mention_hyperlink", FormData_get formData "mention_hyperlink") ] in
  match valFields with
  | inl fieldErrors => fun st => (form_error fieldErrors, st)
  | inr data =>
      let newMention :=
        newMention (Zod.field data "mention_title") (Zod.field data "mention_hyperlink") in
      try_catch
        (sf <- SF.getDB_get (Js.slice 0 2 (Zod.field data "word_text")) ;;
         SF.updateWhere sf
           (fun word => String.eqb (text word) (Zod.field data "word_text"))
           (push_mention newMention) ;;;
         ret (msg "The data has been added successfully. Refresh the page and check it out."
                  success))
        something_went_wrong
  end.

(** ** Reporting *)

(** The values the callbacks of [reportElement] compare. *)
Inductive Value : Type :=
| VUndefined
| VString (s : string)
| VNumber (n : Z).

(** [a === b]. *)
Definition strict_eq (a b : Value) : bool :=
  match a, b with
  | VUndefined, VUndefined => true
  | VString s, VString s' => String.eqb s s'
  | VNumber n, VNumber n' => n =? n'
  | _, _ => false
  end.

(** Reading an identifier that no scope of the module binds. *)
Definition free_variable (name : string) : Js.Exception + Value :=
  inl (Js.ReferenceError name).

(** [v.k] on a value that is no record. *)
Definition Value_prop (v : Value) (k : string) : Js.Exception + Value :=
  match v with
  | VUndefined => inl (Js.TypeError ("Cannot read properties of undefined (reading '" ++ k ++ "')"))
  | _ => inr VUndefined
  end.

(** [const identifiers = { word: ..., definition: ..., ... }] and its lookup
    [identifiers[element_type]]. *)
Definition identifiers (element_type : string) : Value :=
  if String.eqb element_type "word" then VString "word_text"
  else if String.eqb element_type "definition" then VString "def_reference"
  else if String.eqb element_type "example" then VString "example_text"
  else if String.eqb element_type "mention" then VString "mention_hyperlink"
  else VUndefined.

(** [def[k]], [exam[k]] and [mention[k]] for a computed key [k]. *)
Definition Definition_prop (def : Definition_) (k : Value) : Value :=
  match k with
  | VString "text" => VString (def_text def)
  | VString "reference" => VString (def_reference def)
  | VString "V" => VNumber (def_V def)
  | VString "NV" => VNumber (def_NV def)
  | _ => VUndefined
  end.

Definition Example_prop (exam : Example_) (k : Value) : Value :=
  match k with
  | VString "text" => VString (ex_text exam)
  | VString "reference" => VString (ex_reference exam)
  | VString "V" => VNumber (ex_V exam)
  | VString "NV" => VNumber (ex_NV exam)
  | _ => VUndefined
  end.

Definition Mention_prop (mention : Mention) (k : Value) : Value :=
  match k with
  | VString "title" => VString (men_title mention)
  | VString "hyperlink" => VString (men_hyperlink mention)
  | VString "V" => VNumber (men_V mention)
  | VString "NV" => VNumber (men_NV mention)
  | _ => VUndefined
  end.

Declare Scope result_scope.
Delimit Scope result_scope with result.
Notation "x <- m ;; k" :=
  (match m with inl e => inl e | inr x => k end)
  (at level 100, m at next level, right associativity) : result_scope.

Definition undefined_NV {A} : Js.Exception + A :=
  inl (Js.TypeError "Cannot read properties of undefined (reading 'NV')").

(** [reportElement(word, element_type)].  The function has the two
    parameters [word] and [element_type]; the identifiers [element_id] and
    [element] of its body are bound nowhere. *)
Definition reportElement (word : Word) (element_type : string)
  : Js.Exception + Word :=
  (if String.eqb element_type "word" then
     inr {| text := text word; definitions := definitions word;
            examples := examples word; mentions := mentions word;
            V := V word; NV := NV word + 2 |}
   else if String.eqb element_type "definition" then
     i <- Js.findIndex
            (fun def =>
               let lhs := Definition_prop def (identifiers element_type) in
               element_id <- free_variable "element_id" ;;
               inr (strict_eq lhs element_id))
            (definitions word) ;;
     match Js.index (definitions word) i with
     | None => undefined_NV
     | Some def =>
         inr {| text := text word;
                definitions :=
                  <[Z.to_nat i := {| def_text := def_text def;
                                     def_reference := def_reference def;
                                     def_V := def_V def;
                                     def_NV := def_NV def + 2 |}]> (definitions word);
                examples := examples word; mentions := mentions word;
                V := V word; NV := NV word |}
     end
   else
     element <- free_variable "element" ;;
     element_type_ <- Value_prop element "type" ;;
     if strict_eq element_type_ (VString "example") then
       i <- Js.findIndex
              (fun exam =>
                 let lhs := Example_prop exam (identifiers element_type) in
                 element_id <- free_variable "element_id" ;;
                 inr (strict_eq lhs element_id))
              (examples word) ;;
       match Js.index (examples word) i with
       | None => undefined_NV
       | Some exam =>
           inr {| text := text word; definitions := definitions word;
                  examples :=
                    <[Z.to_nat i := {| ex_text := ex_text exam;
                                       ex_reference := ex_reference exam;
                                       ex_V := ex_V exam;
                                       ex_NV := ex_NV exam + 2 |}]> (examples word);
                  mentions := mentions word;
                  V := V word; NV := NV word |}
       end
     else
       element <- free_variable "element" ;;
       element_type_ <- Value_prop element "type" ;;
       if strict_eq element_type_ (VString "mention") then
         i <- Js.findIndex
                (fun mention =>
                   let lhs := Mention_prop mention (identifiers element_type) in
                   element_id <- free_variable "element_id" ;;
                   inr (strict_eq lhs element_id))
                (mentions word) ;;
         match Js.index (mentions word) i with
         | None => undefined_NV
         | Some mention =>
             inr {| text := text word; definitions := definitions word;
                    examples := examples word;
                    mentions :=
                      <[Z.to_nat i := {| men_title := men_title mention;
                                         men_hyperlink := men_hyperlink mention;
                                         men_V := men_V mention;
                                         men_NV := men_NV mention + 2 |}]> (mentions word);
                    V := V word; NV := NV word |}
         end
       else inl (Js.Error "reportElement Error: invalid usage!"))%result.

(** Modelled from the spec: [auth()] of the missing [@/auth] supplies
    the fact of being authenticated and an identity label.  It resolves to
    a session, which may carry a user, or to nothing. *)
Record Session : Type := mkSession { user : option string }.

(** [session?.user] is truthy. *)
Definition has_user (session : option Session) : bool :=
  match session with
  | Some s => bool_decide (is_Some (user s))
  | None => false
  end.

Definition Report (session : option Session) (formData : FormData)
  : Store -> State * Store :=
  let valFields :=
    Zod.safeParse reportSchema
      [ ("word_text", FormData_get formData "word_text");
        ("report_element", FormData_get formData "report_element") ] in
  if negb (has_user session) then
    fun st => (msg "You have to login in order to report items." error, st)
  else
    match valFields with
    | inl fieldErrors => fun st => (form_error fieldErrors, st)
    | inr data =>
        try_catch
          (sf <- SF.getDB_get (Js.slice 0 2 (Zod.field data "word_text")) ;;
           indices <- SF.getIndexOf sf
             (fun word => String.eqb (text word) (Zod.field data "word_text")) ;;
           let index := head indices in
           word <- SF.get sf index ;;
           match word with
           | None => ret (msg ("Cannot find the word " ++ Js.to_string None) error)
           | Some word =>
               if negb (Js.truthy (text word)) then
                 ret (msg ("Cannot find the word " ++ text word) error)
               else
                 let report_element := Zod.field data "report_element" in
                 if negb (Js.includes ["word"; "definition"; "example"; "mention"]
                            report_element) then
                   ret (msg "Invalid input!" error)
                 else
                   word <- lift (reportElement word report_element) ;;
                   SF.update sf index (fun _ => word) ;;;
                   ret (msg "Done. Thanks for reporting." success)
           end)
          something_went_wrong
    end.

(** ** Notions of the specification *)

(** The result taxonomy of the specification. *)
Inductive Outcome : Type :=
| Succeeded
| ValidationFailed
| DuplicateWord
| DuplicateReference
| WordNotFound
| ElementNotFound
| IndexOutOfRange
| InvalidElementType
| Unauthorized
| StorageFault.

(** The outcome a [State] stands for: the actions tell their results apart
    by the type and the text of the message only.  No message of the
    actions stands for [ElementNotFound] or [IndexOutOfRange]; whatever
    the [catch] block answers reads as [StorageFault]. *)
Definition outcome (s : State) : Outcome :=
  let t := msg_text (message s) in
  match msg_type (message s) with
  | success => Succeeded
  | warning => DuplicateWord
  | error =>
      if String.eqb t "Error submitting the form!" then ValidationFailed
      else if String.eqb t "Failed: there is already a definition from the same reference included!"
      then DuplicateReference
      else if String.prefix "Cannot find the word " t then WordNotFound
      else if String.eqb t "Invalid input!" then InvalidElementType
      else if String.eqb t "You have to login in order to report items." then Unauthorized
      else StorageFault
  end.

(** Modelled from the spec: the lookup of a word by its text is not among
    the sources.  It canonicalizes the text, routes to the shard of its
    first two characters and returns the first Word of that text. *)
Definition lookup (text_ : string) (st : Store) : option Word :=
  let t := Js.toLowerCase text_ in
  Shard.findFirst (fun w => String.eqb (text w) t) (contents (Js.slice 0 2 t) st).

(** A form that passes [addDefinitionSchema], with its three values. *)
Record ValidDefinitionForm (formData : FormData) (word_text def_content def_ref : string)
  : Prop :=
  { vd_word_text : FormData_get formData "word_text" = Some (FString word_text);
    vd_def_content : FormData_get formData "def_content" = Some (FString def_content);
    vd_def_reference : FormData_get formData "def_reference" = Some (FString def_ref);
    vd_word_text_len : (2 <= String.length word_text <= 50)%nat;
    vd_def_content_len : (10 <= String.length def_content <= 255)%nat;
    vd_def_reference_len : (10 <= String.length def_ref <= 45)%nat }.

(** A form that passes [addExampleSchema]. *)
Record ValidExampleForm (formData : FormData) (word_text ex_text_ ex_ref : string)
  : Prop :=
  { ve_word_text : FormData_get formData "word_text" = Some (FString word_text);
    ve_example_text : FormData_get formData "example_text" = Some (FString ex_text_);
    ve_example_reference :
      FormData_get formData "example_reference" = Some (FString ex_ref);
    ve_word_text_len : (2 <= String.length word_text <= 50)%nat;
    ve_example_text_len : (10 <= String.length ex_text_ <= 145)%nat;
    ve_example_reference_len : (String.length ex_ref <= 45)%nat }.

(** A form that passes [reportSchema]. *)
Record ValidReportForm (formData : FormData) (word_text report_element : string)
  : Prop :=
  { vr_word_text : FormData_get formData "word_text" = Some (FString word_text);
    vr_report_element :
      FormData_get formData "report_element" = Some (FString report_element);
    vr_word_text_len : (2 <= String.length word_text <= 50)%nat }.

(** The Word at position [i] is the first one of [sh] that satisfies [p]. *)
Definition first_match (p : Word -> bool) (sh : Shard.t) (i : nat) (w : Word)
  : Prop :=
  sh !! i = Some w /\ p w = true /\
  forall j w', (j < i)%nat -> sh !! j = Some w' -> p w' = false.

(** Every Word of the store has a text (the schema admits no text shorter
    than two characters). *)
Definition texts_nonempty (st : Store) : Prop :=
  forall k i w, contents k st !! i = Some w -> text w <> "".

(** Scores never decrease from [a] to [b]. *)
Definition scores_le {A} `{Scored A} (a b : A) : Prop :=
  approvals a <= approvals b /\ disapprovals a <= disapprovals b.

(** Every record of [l] is still at its position in [l'], related by [R]. *)
Definition kept {A} (R : A -> A -> Prop) (l l' : list A) : Prop :=
  forall i a, l !! i = Some a -> exists b, l' !! i = Some b /\ R a b.

Definition word_le (w w' : Word) : Prop :=
  text w = text w' /\ scores_le w w' /\
  kept scores_le (definitions w) (definitions w') /\
  kept scores_le (examples w) (examples w') /\
  kept scores_le (mentions w) (mentions w').

(** Every record of [st] is still in [st'], at the same place, and none of
    its counters is smaller there. *)
Definition store_le (st st' : Store) : Prop :=
  forall k, kept word_le (contents k st) (contents k st').

(** The five operations on the store. *)
Inductive Operation : Type :=
| OpAddWord (formData : FormData)
| OpAddDefinition (formData : FormData)
| OpAddExample (formData : FormData)
| OpAddMention (formData : FormData)
| OpReport (session : option Session) (formData : FormData).

Definition run (op : Operation) : Store -> State * Store :=
  match op with
  | OpAddWord formData => addWord formData
  | OpAddDefinition formData => addDefinition formData
  | OpAddExample formData => addExample formData
  | OpAddMention formData => addMention formData
  | OpReport session formData => Report session formData
  end.

(** The sub-record kinds of a report, and whether a sub-record of that kind
    of [w] is identified by [element_id] (a definition by its reference, an
    example by its text, a mention by its hyperlink). *)
Definition sub_record_type (element_type : string) : Prop :=
  element_type = "definition" \/ element_type = "example" \/ element_type = "mention".

Definition identifies (w : Word) (element_type element_id : string) : Prop :=
  (element_type = "definition" /\
     exists d, d ∈ definitions w /\ def_reference d = element_id) \/
  (element_type = "example" /\
     exists e, e ∈ examples w /\ ex_text e = element_id) \/
  (element_type = "mention" /\
     exists m, m ∈ mentions w /\ men_hyperlink m = element_id).

(** The answer of [addWord] to a text that is stored already. *)
Definition duplicate_word (t : string) : State :=
  {| message := {| msg_text := t ++ " already exists."; msg_type := warning |};
     errors := Some [ ("word_text", [custom "word already exists"]) ] |}.

(** A Word of text [t] sits at position [i] of the shard of [k]. *)
Definition occurs (t : string) (st : Store) (k : string) (i : nat) : Prop :=
  exists w, contents k st !! i = Some w /\ text w = t.

Definition not_stored (t : string) (st : Store) : Prop :=
  forall k i, ~ occurs t st k i.

(** The store holds exactly one Word of text [t]. *)
Definition stored_once (t : string) (st : Store) : Prop :=
  exists k i, occurs t st k i /\
    forall k' i', occurs t st k' i' -> k' = k /\ i' = i.

(** An action that answers with a success and leaves the Words of every
    shard as they were. *)
Definition silent_no_op (r : State * Store) (st : Store) : Prop :=
  msg_type (message (fst r)) = success /\ outcome (fst r) = Succeeded /\
  forall k, contents k (snd r) = contents k st.

(** [word] with 2 added to its [NV]. *)
Definition penalised (word : Word) : Word :=
  {| text := text word; definitions := definitions word;
     examples := examples word; mentions := mentions word;
     V := V word; NV := NV word + 2 |}.

(** The Word a lookup finds right after [addWord], with no example and no
    mention yet. *)
Definition seeded_with_empty_collections (w : Word) (dc dr : string) : Prop :=
  V w = 1 /\ NV w = 0 /\ definitions w = [newDefinition dc dr] /\
  examples w = [] /\ mentions w = [].

(** The same Word with one placeholder record, of empty strings and scores
    1 and 0, in each of the two collections. *)
Definition seeded_with_placeholders (w : Word) (dc dr : string) : Prop :=
  V w = 1 /\ NV w = 0 /\ definitions w = [newDefinition dc dr] /\
  examples w = [newExample "" ""] /\ mentions w = [newMention "" ""].

(** The action answers with outcome [o] and leaves the store as it was. *)
Definition rejected_as (o : Outcome) (r : State * Store) (st : Store) : Prop :=
  outcome (fst r) = o /\ snd r = st.

(** ** Sample requests *)

Module Sample.

Definition alice : option Session := Some {| user := Some "alice" |}.

Definition add_test : FormData :=
  [ ("word_text", FString "test");
    ("def_content", FString "a procedure to establish quality");
    ("def_reference", FString "Oxford Dictionary") ].

Definition add_test_again : FormData :=
  [ ("word_text", FString "test");
    ("def_content", FString "an examination of knowledge");
    ("def_reference", FString "Cambridge Dictionary") ].

(** The store after [add_test] on the empty store. *)
Definition store : Store := snd (addWord add_test ∅).

Definition test_word : Word :=
  newWord "test" "a procedure to establish quality" "Oxford Dictionary".

(** A report of the definition of [test]; the element identifier has no
    field of its own in [reportSchema], it travels in [report_id]. *)
Definition report_definition (element_id : string) : FormData :=
  [ ("word_text", FString "test");
    ("report_element", FString "definition");
    ("report_id", FString element_id) ].

Definition add_ruN : FormData :=
  [ ("word_text", FString "ruN");
    ("def_content", FString "to move quickly on foot");
    ("def_reference", FString "Oxford Dictionary") ].

Definition run_store : Store := snd (addWord add_ruN ∅).

Definition run_word : Word :=
  newWord "ruN" "to move quickly on foot" "Oxford Dictionary".

Definition define_ruN : FormData :=
  [ ("word_text", FString "ruN");
    ("def_content", FString "to be in operation");
    ("def_reference", FString "Cambridge Dictionary") ].

Definition report_ruN : FormData :=
  [ ("word_text", FString "ruN"); ("report_element", FString "word") ].

Definition example_for_tester : FormData :=
  [ ("word_text", FString "tester");
    ("example_text", FString "The tester found a defect.");
    ("example_reference", FString "a primer") ].

Definition define_tester : FormData :=
  [ ("word_text", FString "tester");
    ("def_content", FString "a person who tests something");
    ("def_reference", FString "Cambridge Dictionary") ].

Definition define_test_same_reference : FormData :=
  [ ("word_text", FString "test");
    ("def_content", FString "an examination of knowledge");
    ("def_reference", FString "Oxford Dictionary") ].

End Sample.

(** ** Further notions: forms, invariants, views *)

(** A form that passes [addMentionSchema]. *)
Record ValidMentionForm (formData : FormData) (word_text title hyperlink : string)
  : Prop :=
  { vm_word_text : FormData_get formData "word_text" = Some (FString word_text);
    vm_mention_title : FormData_get formData "mention_title" = Some (FString title);
    vm_mention_hyperlink :
      FormData_get formData "mention_hyperlink" = Some (FString hyperlink);
    vm_word_text_len : (2 <= String.length word_text <= 50)%nat;
    vm_mention_title_len : (10 <= String.length title <= 45)%nat;
    vm_mention_hyperlink_https : Js.startsWith "https://" hyperlink = true }.

(** The string that an action reads as [word_text], if the form has one. *)
Definition submitted_text (formData : FormData) : string :=
  match FormData_get formData "word_text" with
  | Some (FString s) => s
  | _ => ""
  end.

(** The key of the only shard that an operation opens. *)
Definition target_key (op : Operation) : string :=
  match op with
  | OpAddWord formData => Js.slice 0 2 (Js.toLowerCase (submitted_text formData))
  | OpAddDefinition formData
  | OpAddExample formData
  | OpAddMention formData
  | OpReport _ formData => Js.slice 0 2 (submitted_text formData)
  end.

(** Every stored text is in lower case (lowercasing leaves it as it is), is
    not empty and sits in the shard of its first two characters. *)
Definition canonical (st : Store) : Prop :=
  forall k i w, contents k st !! i = Some w ->
    Js.toLowerCase (text w) = text w /\
    text w <> "" /\
    Js.slice 0 2 (text w) = k.

(** No two places of the store hold Words of the same text. *)
Definition unique_texts (st : Store) : Prop :=
  forall k i w k' i' w',
    contents k st !! i = Some w -> contents k' st !! i' = Some w' ->
    text w = text w' -> k = k' /\ i = i'.

(** Within every Word the references of the definitions are pairwise
    distinct. *)
Definition distinct_references (st : Store) : Prop :=
  forall k i w, contents k st !! i = Some w ->
    NoDup (def_reference <$> definitions w).

(** [w'] is [w] with more records at most: the same text and scores, and
    collections that extend those of [w]. *)
Definition extends (w w' : Word) : Prop :=
  text w' = text w /\ V w' = V w /\ NV w' = NV w /\
  (exists ds, definitions w' = (definitions w ++ ds)%list) /\
  (exists es, examples w' = (examples w ++ es)%list) /\
  (exists ms, mentions w' = (mentions w ++ ms)%list).

(** [word] after [n] reports of the word itself. *)
Definition penalised_by (n : nat) (word : Word) : Word :=
  {| text := text word; definitions := definitions word;
     examples := examples word; mentions := mentions word;
     V := V word; NV := NV word + 2 * Z.of_nat n |}.

(** ** The views (src/components/forms/add-word-form.tsx, src/app/layout.tsx)

    Of the two components the model keeps what depends on the state of the
    action and on the session: the messages, the alert and the header. *)

(** [state.errors?.[name]]. *)
Fixpoint FieldErrors_get (errs : FieldErrors) (name : string)
  : option (list FieldError) :=
  match errs with
  | [] => None
  | (k, v) :: rest => if String.eqb k name then Some v else FieldErrors_get rest name
  end.

(** The [Alert] of [AddWordForm]: [variant] is [destructive] or [false]
    ([None]), [className] is the green one or empty. *)
Record Alert : Type := mkAlert
  { variant : option string; className : string; description : string }.

(** What [AddWordForm] renders from the [state] of [useActionState], which
    is the empty object ([None]) before the first submission. *)
Record AddWordFormView : Type := mkAddWordFormView
  { word_text_message : option (list FieldError);
    def_content_message : option (list FieldError);
    def_reference_message : option (list FieldError);
    alert : option Alert }.

Definition AddWordForm (state : option State) : AddWordFormView :=
  let errors_ (name : string) :=
    s ← state; errs ← errors s; FieldErrors_get errs name in
  {| word_text_message := errors_ "word_text";
     def_content_message := errors_ "def_content";
     def_reference_message := errors_ "def_reference";
     alert :=
       s ← state;
       Some {| variant :=
                 match msg_type (message s) with
                 | error => Some "destructive"
                 | _ => None
                 end;
               className :=
                 match msg_type (message s) with
                 | success => "border-green-600 text-green-600"
                 | _ => ""
                 end;
               description := msg_text (message s) |} |}.

(** The two server actions of the header form. *)
Inductive AuthAction : Type := login | logout.

(** The header of [RootLayout]: the greeting, shown to a session with a
    user, the action of the form and the text of its button. *)
Record Header : Type := mkHeader
  { greeting : option string; form_action : AuthAction; button_text : string }.

Definition RootLayout (session : option Session) : Header :=
  {| greeting :=
       s ← session; name ← user s;
       Some ("You have logged in as " ++ name);
     form_action := if has_user session then logout else login;
     button_text := if has_user session then "Logout" else "Login with Google" |}.

(** ** Further sample requests *)

Module Demo.

Definition add_Run : FormData :=
  [ ("word_text", FString "Run");
    ("def_content", FString "to move quickly on foot");
    ("def_reference", FString "Oxford Dictionary") ].

Definition add_RUN : FormData :=
  [ ("word_text", FString "RUN");
    ("def_content", FString "to be in operation");
    ("def_reference", FString "Cambridge Dictionary") ].

Definition example_for_test : FormData :=
  [ ("word_text", FString "test");
    ("example_text", FString "The test took an hour.");
    ("example_reference", FString "a primer") ].

Definition mention_for_test : FormData :=
  [ ("word_text", FString "test");
    ("mention_title", FString "Testing in practice");
    ("mention_hyperlink", FString "https://example.org/testing") ].

Definition insecure_mention : FormData :=
  [ ("word_text", FString "test");
    ("mention_title", FString "Testing in practice");
    ("mention_hyperlink", FString "http://example.org/testing") ].

Definition report_word : FormData :=
  [ ("word_text", FString "test"); ("report_element", FString "word") ].

Definition report_of (word_text element_type : string) : FormData :=
  [ ("word_text", FString word_text); ("report_element", FString element_type) ].

End Demo.

(** The store after the shard of [key] has been opened. *)
Definition opened (key : string) (st : Store) : Store :=
  <[key := contents key st]> st.

(** The store after a sequence of operations, first operation first. *)
Definition run_all (ops : list Operation) (st : Store) : Store :=
  fold_left (fun s op => snd (run op s)) ops st.

(** Every shard of [st'] holds the texts of the same shard of [st], in the
    same order. *)
Definition same_texts (st st' : Store) : Prop :=
  forall k, text <$> contents k st' = text <$> contents k st.

(** * Properties *)

(** ** Strings and schemas *)


Lemma toLowerCase_nonempty s : s <> "" -> Js.toLowerCase s <> "".
Proof. destruct s; [congruence | discriminate]. Qed.

Lemma long_nonempty s : (2 <= String.length s)%nat -> s <> "".
Proof. intros H ->. simpl in H. lia. Qed.

Lemma lower_ascii_idemp c : Js.lower_ascii (Js.lower_ascii c) = Js.lower_ascii c.
Proof. destruct c as [[] [] [] [] [] [] [] []]; vm_compute; reflexivity. Qed.

Lemma toLowerCase_idemp s : Js.toLowerCase (Js.toLowerCase s) = Js.toLowerCase s.
Proof.
  induction s as [|c s IH]; simpl; [reflexivity|].
  now rewrite lower_ascii_idemp, IH.
Qed.

Lemma truthy_length s : (0 < String.length s)%nat -> Js.truthy s = true.
Proof. destruct s; simpl; [lia | reflexivity]. Qed.

Lemma truthy_nonempty s : s <> "" -> Js.truthy s = true.
Proof. destruct s; [congruence | reflexivity]. Qed.

Lemma leb_range a n b : (a <= n <= b)%nat -> (a <=? n)%nat = true /\ (n <=? b)%nat = true.
Proof. intros [? ?]; split; apply Nat.leb_le; assumption. Qed.

Lemma safeParse_definition formData wt dc dr :
  ValidDefinitionForm formData wt dc dr ->
  Zod.safeParse addDefinitionSchema
    [ ("word_text", FormData_get formData "word_text");
      ("def_content", FormData_get formData "def_content");
      ("def_reference", FormData_get formData "def_reference") ]
  = inr [("word_text", wt); ("def_content", dc); ("def_reference", dr)].
Proof.
  intros [-> -> -> [W1 W2]%leb_range [C1 C2]%leb_range [R1 R2]%leb_range].
  unfold Zod.safeParse; with_strategy opaque [Nat.leb] simpl.
  now rewrite W1, W2, C1, C2, R1, R2.
Qed.

Lemma safeParse_example formData wt et er :
  ValidExampleForm formData wt et er ->
  Zod.safeParse addExampleSchema
    [ ("word_text", FormData_get formData "word_text");
      ("example_text", FormData_get formData "example_text");
      ("example_reference", FormData_get formData "example_reference") ]
  = inr [("word_text", wt); ("example_text", et); ("example_reference", er)].
Proof.
  intros [-> -> -> [W1 W2]%leb_range [C1 C2]%leb_range R%Nat.leb_le].
  unfold Zod.safeParse; with_strategy opaque [Nat.leb] simpl.
  now rewrite W1, W2, C1, C2, R.
Qed.

Lemma safeParse_report formData wt re :
  ValidReportForm formData wt re ->
  Zod.safeParse reportSchema
    [ ("word_text", FormData_get formData "word_text");
      ("report_element", FormData_get formData "report_element") ]
  = inr [("word_text", wt); ("report_element", re)].
Proof.
  intros [-> -> [W1 W2]%leb_range].
  unfold Zod.safeParse; with_strategy opaque [Nat.leb] simpl.
  now rewrite W1, W2.
Qed.

(** ** Shards *)

Section ShardFacts.

Variable p : Word -> bool.

Lemma findFirst_app sh sh' :
  Shard.findFirst p (sh ++ sh')%list =
  match Shard.findFirst p sh with
  | Some w => Some w
  | None => Shard.findFirst p sh'
  end.
Proof.
  induction sh as [|w sh IH]; simpl; [reflexivity|].
  destruct (p w); [reflexivity | exact IH].
Qed.

Lemma findFirst_None sh :
  Shard.findFirst p sh = None <-> forall i w, sh !! i = Some w -> p w = false.
Proof.
  induction sh as [|w sh IH]; simpl.
  - split; [intros _ i w' H; destruct i; discriminate | reflexivity].
  - destruct IH as [IH1 IH2]. destruct (p w) eqn:E; split.
    + discriminate.
    + intros H. specialize (H 0%nat w eq_refl). congruence.
    + intros H [|i] w' Hi; simpl in Hi; [congruence|].
      exact (IH1 H i w' Hi).
    + intros H. apply IH2. intros i w' Hi. apply (H (S i)). exact Hi.
Qed.

Lemma findFirst_Some sh w :
  Shard.findFirst p sh = Some w <-> exists i, first_match p sh i w.
Proof.
  unfold first_match. induction sh as [|w0 sh IH]; simpl.
  - split; [discriminate | intros [i [H _]]; destruct i; discriminate].
  - destruct IH as [IH1 IH2]. destruct (p w0) eqn:E; split.
    + intros [= <-]. exists 0%nat. repeat split; [assumption | lia].
    + intros [[|i] (Hi & Hp & Hlt)]; simpl in Hi; [congruence|].
      specialize (Hlt 0%nat w0 ltac:(lia) eq_refl). congruence.
    + intros H. destruct (IH1 H) as (i & Hi & Hp & Hlt).
      exists (S i). repeat split; [assumption..|].
      intros [|j] w' Hj Hw; simpl in Hw; [congruence|].
      apply (Hlt j); [lia | assumption].
    + intros [[|i] (Hi & Hp & Hlt)]; simpl in Hi; [congruence|].
      apply IH2. exists i. repeat split; [assumption..|].
      intros j w' Hj Hw. apply (Hlt (S j)); [lia | assumption].
Qed.

Lemma first_match_unique sh i w j w' :
  first_match p sh i w -> first_match p sh j w' -> i = j /\ w = w'.
Proof.
  intros (Hi & Hp & Hlt) (Hj & Hp' & Hlt').
  assert (i = j) as ->.
  { destruct (Nat.lt_trichotomy i j) as [H|[H|H]]; [|assumption|].
    - specialize (Hlt' _ _ H Hi). congruence.
    - specialize (Hlt _ _ H Hj). congruence. }
  split; congruence.
Qed.

Lemma indexOf_from_first sh n i w :
  first_match p sh i w ->
  head (Shard.indexOf_from p sh n) = Some (n + i)%nat.
Proof.
  revert n i. induction sh as [|w0 sh IH]; intros n i (Hi & Hp & Hlt).
  - destruct i; discriminate.
  - simpl. destruct i as [|i]; simpl in Hi.
    + injection Hi as ->. rewrite Hp. simpl. f_equal. lia.
    + rewrite (Hlt 0%nat w0 ltac:(lia) eq_refl).
      rewrite (IH (S n) i); [f_equal; lia|].
      repeat split; [assumption..|].
      intros j w' Hj Hw. apply (Hlt (S j)); [lia | assumption].
Qed.

Lemma indexOf_head_first sh i w :
  first_match p sh i w -> head (Shard.indexOf p sh) = Some i.
Proof. intros Hm. unfold Shard.indexOf. now rewrite (indexOf_from_first _ 0 i w). Qed.

Lemma indexOf_head_None sh :
  Shard.findFirst p sh = None -> head (Shard.indexOf p sh) = None.
Proof.
  unfold Shard.indexOf. generalize 0%nat.
  induction sh as [|w sh IH]; intros n; simpl; [reflexivity|].
  destruct (p w); [discriminate | auto].
Qed.

Lemma indexOf_head_Some sh i :
  head (Shard.indexOf p sh) = Some i -> exists w, first_match p sh i w.
Proof.
  intros H. destruct (Shard.findFirst p sh) as [w|] eqn:E.
  - apply findFirst_Some in E as [j Hm].
    rewrite (indexOf_head_first _ _ _ Hm) in H. injection H as <-. eauto.
  - rewrite (indexOf_head_None _ E) in H. discriminate.
Qed.

Variable f : Word -> Word.

Lemma updateWhere_no_match sh :
  Shard.findFirst p sh = None -> Shard.updateWhere p f sh = sh.
Proof.
  induction sh as [|w sh IH]; simpl; [reflexivity|].
  destruct (p w); [discriminate|]. intros H. now rewrite IH.
Qed.

Lemma updateWhere_first_match sh i w :
  first_match p sh i w -> Shard.updateWhere p f sh = <[i := f w]> sh.
Proof.
  revert i. induction sh as [|w0 sh IH]; intros i (Hi & Hp & Hlt).
  - destruct i; discriminate.
  - simpl. destruct i as [|i]; simpl in Hi.
    + injection Hi as ->. now rewrite Hp.
    + rewrite (Hlt 0%nat w0 ltac:(lia) eq_refl). simpl. f_equal.
      apply IH. repeat split; [assumption..|].
      intros j w' Hj Hw. apply (Hlt (S j)); [lia | assumption].
Qed.

End ShardFacts.

(** ** The store *)

Lemma contents_insert_eq (k : string) (sh : Shard.t) (st : Store) : contents k (<[k := sh]> st) = sh.
Proof. unfold contents. now rewrite lookup_insert_eq. Qed.

Lemma contents_insert_ne (k k' : string) (sh : Shard.t) (st : Store) :
  k <> k' -> contents k' (<[k := sh]> st) = contents k' st.
Proof. intros H. unfold contents. now rewrite lookup_insert_ne. Qed.

Lemma contents_lookup (k : string) (sh : Shard.t) (st : Store) : st !! k = Some sh -> contents k st = sh.
Proof. intros H. unfold contents. now rewrite H. Qed.

(** Opening a shard leaves the Words of every shard as they are; when the
    shard has storage already, the store itself is unchanged. *)
Lemma getDB_get_eq (key : string) (st : Store) :
  SF.getDB_get key st = (inr key, <[key := contents key st]> st).
Proof.
  unfold SF.getDB_get, contents. destruct (st !! key) as [sh|] eqn:E; simpl.
  - now rewrite insert_id.
  - reflexivity.
Qed.

Lemma insert_contents_present (key : string) (sh : Shard.t) (st : Store) :
  st !! key = Some sh -> <[key := contents key st]> st = st.
Proof. intros H. rewrite (contents_lookup _ _ _ H). now apply insert_id. Qed.

Lemma contents_insert_contents (k key : string) (st : Store) :
  contents k (<[key := contents key st]> st) = contents k st.
Proof.
  destruct (decide (key = k)) as [->|Hne].
  - apply contents_insert_eq.
  - now apply contents_insert_ne.
Qed.

Lemma contents_nonempty_lookup (k : string) (i : nat) (w : Word) (st : Store) :
  contents k st !! i = Some w -> st !! k = Some (contents k st).
Proof.
  unfold contents. destruct (st !! k); simpl; [reflexivity|].
  destruct i; discriminate.
Qed.

(** ** Monotone scores *)

Lemma scores_le_refl {A} `{Scored A} (a : A) : scores_le a a.
Proof. unfold scores_le; lia. Qed.

Lemma kept_refl {A} (R : A -> A -> Prop) l : (forall a, R a a) -> kept R l l.
Proof. intros HR i a Hi. eauto. Qed.

Lemma kept_app {A} (R : A -> A -> Prop) (l l' : list A) :
  (forall a, R a a) -> kept R l (l ++ l')%list.
Proof.
  intros HR i a Hi. exists a. split; [|apply HR].
  now apply lookup_app_l_Some.
Qed.

Lemma kept_insert {A} (R : A -> A -> Prop) (l : list A) i a b :
  (forall a, R a a) -> l !! i = Some a -> R a b -> kept R l (<[i := b]> l).
Proof.
  intros HR Hi Hab j c Hj. destruct (decide (i = j)) as [->|Hne].
  - exists b. split.
    + apply list_lookup_insert_eq. now apply lookup_lt_Some in Hj.
    + congruence.
  - exists c. split; [|apply HR]. now rewrite list_lookup_insert_ne.
Qed.

Lemma word_le_refl w : word_le w w.
Proof.
  repeat split; try apply kept_refl; try (intros; apply scores_le_refl);
    simpl; lia.
Qed.

Lemma store_le_refl (st : Store) : store_le st st.
Proof. intros k. apply kept_refl, word_le_refl. Qed.

Lemma store_le_insert (k : string) (sh : Shard.t) (st : Store) :
  kept word_le (contents k st) sh -> store_le st (<[k := sh]> st).
Proof.
  intros H k'. destruct (decide (k = k')) as [<-|Hne].
  - now rewrite contents_insert_eq.
  - rewrite contents_insert_ne by assumption. apply kept_refl, word_le_refl.
Qed.

Lemma kept_updateWhere p f sh :
  (forall w, word_le w (f w)) -> kept word_le sh (Shard.updateWhere p f sh).
Proof.
  intros Hf. destruct (Shard.findFirst p sh) as [w|] eqn:E.
  - apply findFirst_Some in E as [i Hm].
    rewrite (updateWhere_first_match _ _ _ _ _ Hm).
    destruct Hm as (Hi & _). eapply kept_insert; eauto using word_le_refl.
  - rewrite updateWhere_no_match by assumption. apply kept_refl, word_le_refl.
Qed.

(** ** [reportElement] *)

(** A callback that reads an unbound identifier throws at its first call. *)
Lemma findIndex_unbound {A} (lhs : A -> Value) name (a : list A) :
  Js.findIndex
    (fun x => match free_variable name with
              | inl e => inl e
              | inr v => inr (strict_eq (lhs x) v)
              end) a
  = match a with
    | [] => inr (-1)
    | _ :: _ => inl (Js.ReferenceError name)
    end.
Proof. destruct a; reflexivity. Qed.

(** Only a report of the word itself returns; it adds 2 to [NV]. *)
Lemma reportElement_word w :
  reportElement w "word" =
  inr {| text := text w; definitions := definitions w; examples := examples w;
         mentions := mentions w; V := V w; NV := NV w + 2 |}.
Proof. reflexivity. Qed.

Lemma reportElement_throws w element_type :
  element_type <> "word" -> exists e, reportElement w element_type = inl e.
Proof.
  intros Hne. unfold reportElement.
  destruct (String.eqb element_type "word") eqn:E.
  - apply String.eqb_eq in E. contradiction.
  - destruct (String.eqb element_type "definition").
    + rewrite findIndex_unbound. destruct (definitions w); simpl; eauto.
    + simpl. eauto.
Qed.

Lemma reportElement_inr w element_type w' :
  reportElement w element_type = inr w' ->
  element_type = "word" /\
  w' = {| text := text w; definitions := definitions w; examples := examples w;
          mentions := mentions w; V := V w; NV := NV w + 2 |}.
Proof.
  intros H. destruct (string_dec element_type "word") as [->|Hne].
  - rewrite reportElement_word in H. split; congruence.
  - destruct (reportElement_throws w _ Hne) as [e He]. congruence.
Qed.

Lemma reportElement_le w element_type w' :
  reportElement w element_type = inr w' -> word_le w w'.
Proof.
  intros [_ ->]%reportElement_inr.
  repeat split; try apply kept_refl; try (intros; apply scores_le_refl);
    simpl; lia.
Qed.

(** ** The store an action leaves behind *)

Ltac step_action :=
  unfold try_catch, bind, ret, lift, SF.getWhere, SF.add, SF.updateWhere,
    SF.getIndexOf, SF.get, SF.update;
  rewrite ?getDB_get_eq; simpl;
  rewrite ?contents_insert_eq, ?insert_insert_eq.

Lemma store_le_opened (key : string) (st : Store) :
  store_le st (<[key := contents key st]> st).
Proof. apply store_le_insert, kept_refl, word_le_refl. Qed.

Lemma addWord_le formData st : store_le st (snd (addWord formData st)).
Proof.
  unfold addWord. destruct (Zod.safeParse _ _) as [errs|data]; simpl.
  - apply store_le_refl.
  - step_action. destruct (Js.truthy_opt _); simpl.
    + apply store_le_opened.
    + rewrite contents_insert_eq, insert_insert_eq.
      apply store_le_insert, kept_app, word_le_refl.
Qed.

Lemma word_le_push_definition d w : word_le w (push_definition d w).
Proof.
  repeat split; simpl; try lia;
    first [apply kept_app | apply kept_refl]; intros; apply scores_le_refl.
Qed.

Lemma word_le_push_example e w : word_le w (push_example e w).
Proof.
  repeat split; simpl; try lia;
    first [apply kept_app | apply kept_refl]; intros; apply scores_le_refl.
Qed.

Lemma word_le_push_mention m w : word_le w (push_mention m w).
Proof.
  repeat split; simpl; try lia;
    first [apply kept_app | apply kept_refl]; intros; apply scores_le_refl.
Qed.

Lemma addDefinition_le formData st : store_le st (snd (addDefinition formData st)).
Proof.
  unfold addDefinition. destruct (Zod.safeParse _ _) as [errs|data]; simpl.
  - apply store_le_refl.
  - step_action. destruct (Js.truthy_opt _); simpl.
    + apply store_le_opened.
    + rewrite contents_insert_eq, insert_insert_eq.
      apply store_le_insert, kept_updateWhere, word_le_push_definition.
Qed.

Lemma addExample_le formData st : store_le st (snd (addExample formData st)).
Proof.
  unfold addExample. destruct (Zod.safeParse _ _) as [errs|data]; simpl.
  - apply store_le_refl.
  - step_action. apply store_le_insert, kept_updateWhere, word_le_push_example.
Qed.

Lemma addMention_le formData st : store_le st (snd (addMention formData st)).
Proof.
  unfold addMention. destruct (Zod.safeParse _ _) as [errs|data]; simpl.
  - apply store_le_refl.
  - step_action. apply store_le_insert, kept_updateWhere, word_le_push_mention.
Qed.

Lemma Report_le session formData st : store_le st (snd (Report session formData st)).
Proof.
  unfold Report. destruct (has_user session); simpl; [|apply store_le_refl].
  destruct (Zod.safeParse _ _) as [errs|data]; simpl; [apply store_le_refl|].
  step_action.
  set (key := Js.slice 0 2 (Zod.field data "word_text")).
  destruct (head _) as [i|]; simpl; [|apply store_le_opened].
  destruct (contents key st !! i) as [w|] eqn:Hi; [|apply store_le_opened].
  destruct (negb (Js.truthy (text w))); [apply store_le_opened|].
  destruct (negb _); [apply store_le_opened|].
  destruct (reportElement w _) as [e|w'] eqn:Hr; [apply store_le_opened|].
  unfold Shard.updateAt. rewrite contents_insert_eq, Hi; simpl.
  rewrite insert_insert_eq. apply store_le_insert.
  eapply kept_insert; eauto using word_le_refl, reportElement_le.
Qed.

(** ** [addWord] on a valid form *)

Lemma lookup_text wt st w : lookup wt st = Some w -> text w = Js.toLowerCase wt.
Proof.
  unfold lookup. intros (i & _ & Hp & _)%findFirst_Some.
  now apply String.eqb_eq in Hp.
Qed.

Lemma not_stored_lookup wt st :
  not_stored (Js.toLowerCase wt) st -> lookup wt st = None.
Proof.
  intros Hn. unfold lookup. apply findFirst_None. intros i w Hi.
  apply String.eqb_neq. intros Ht.
  apply (Hn (Js.slice 0 2 (Js.toLowerCase wt)) i). exists w. eauto.
Qed.

Lemma addWord_fresh formData wt dc dr st :
  ValidDefinitionForm formData wt dc dr ->
  lookup wt st = None ->
  addWord formData st =
  (msg (Js.toLowerCase wt ++ " has been successfully added.") success,
   <[Js.slice 0 2 (Js.toLowerCase wt) :=
       Shard.append (newWord wt dc dr)
         (contents (Js.slice 0 2 (Js.toLowerCase wt)) st)]> st).
Proof.
  intros Hv Hl. unfold addWord. rewrite (safeParse_definition _ _ _ _ Hv).
  step_action. unfold lookup in Hl. rewrite Hl. simpl.
  now rewrite contents_insert_eq, insert_insert_eq.
Qed.

Lemma addWord_existing formData wt dc dr st w :
  ValidDefinitionForm formData wt dc dr ->
  lookup wt st = Some w ->
  addWord formData st = (duplicate_word (Js.toLowerCase wt), st).
Proof.
  intros Hv Hl. unfold addWord. rewrite (safeParse_definition _ _ _ _ Hv).
  step_action. pose proof (lookup_text _ _ _ Hl) as Ht.
  unfold lookup in Hl. rewrite Hl. simpl.
  rewrite Ht, truthy_nonempty.
  - apply findFirst_Some in Hl as (i & Hi & _).
    now rewrite (insert_contents_present _ _ _ (contents_nonempty_lookup _ _ _ _ Hi)).
  - apply toLowerCase_nonempty, long_nonempty. destruct Hv. lia.
Qed.

Lemma lookup_after_add wt dc dr st :
  lookup wt st = None ->
  lookup wt (<[Js.slice 0 2 (Js.toLowerCase wt) :=
       Shard.append (newWord wt dc dr)
         (contents (Js.slice 0 2 (Js.toLowerCase wt)) st)]> st)
  = Some (newWord wt dc dr).
Proof.
  intros Hl. unfold lookup in *. rewrite contents_insert_eq.
  unfold Shard.append. rewrite findFirst_app, Hl. simpl.
  now rewrite String.eqb_refl.
Qed.

Lemma stored_once_after_add wt dc dr st :
  not_stored (Js.toLowerCase wt) st ->
  stored_once (Js.toLowerCase wt)
    (<[Js.slice 0 2 (Js.toLowerCase wt) :=
       Shard.append (newWord wt dc dr)
         (contents (Js.slice 0 2 (Js.toLowerCase wt)) st)]> st).
Proof.
  intros Hn. set (key := Js.slice 0 2 (Js.toLowerCase wt)).
  exists key, (length (contents key st)). split.
  - exists (newWord wt dc dr). split; [|reflexivity].
    rewrite contents_insert_eq. unfold Shard.append.
    now rewrite lookup_app_r, Nat.sub_diag by lia.
  - intros k' i' (w & Hi & Ht). destruct (decide (key = k')) as [<-|Hne].
    + split; [reflexivity|]. rewrite contents_insert_eq in Hi.
      unfold Shard.append in Hi.
      destruct (Nat.lt_trichotomy i' (length (contents key st))) as [Hlt|[Heq|Hgt]].
      * rewrite lookup_app_l in Hi by assumption.
        exfalso. apply (Hn key i'). exists w. eauto.
      * assumption.
      * apply lookup_lt_Some in Hi. rewrite length_app in Hi. simpl in Hi. lia.
    + rewrite contents_insert_ne in Hi by assumption.
      exfalso. apply (Hn k' i'). exists w. eauto.
Qed.

(** ** [addDefinition] and [addExample] on a valid form *)

Lemma has_reference_true r w :
  has_reference r w = true <->
  exists d, d ∈ definitions w /\ def_reference d = r.
Proof.
  unfold has_reference. rewrite bool_decide_eq_true. split.
  - intros [d Hd]. apply List.find_some in Hd as [Hin Hr].
    exists d. split; [now apply list_elem_of_In | now apply String.eqb_eq].
  - intros (d & Hin & Hr). destruct (List.find _ _) as [d'|] eqn:E; [eauto|].
    apply list_elem_of_In in Hin.
    pose proof (List.find_none _ _ E d Hin) as Hf. simpl in Hf.
    apply String.eqb_neq in Hf. contradiction.
Qed.

Lemma has_reference_false r w :
  has_reference r w = false <->
  forall d, d ∈ definitions w -> def_reference d <> r.
Proof.
  split.
  - intros Hf d Hin Hr.
    assert (has_reference r w = true) by (apply has_reference_true; eauto).
    congruence.
  - intros H. destruct (has_reference r w) eqn:E; [|reflexivity].
    apply has_reference_true in E as (d & Hin & Hr). now apply H in Hin.
Qed.

Lemma addDefinition_duplicate formData wt dc dr st w :
  ValidDefinitionForm formData wt dc dr ->
  Shard.findFirst (has_reference dr) (contents (Js.slice 0 2 wt) st) = Some w ->
  text w <> "" ->
  addDefinition formData st =
  (msg "Failed: there is already a definition from the same reference included!" error, st).
Proof.
  intros Hv Hf Ht. unfold addDefinition. rewrite (safeParse_definition _ _ _ _ Hv).
  step_action. rewrite Hf. simpl. rewrite (truthy_nonempty _ Ht).
  apply findFirst_Some in Hf as (i & Hi & _).
  now rewrite (insert_contents_present _ _ _ (contents_nonempty_lookup _ _ _ _ Hi)).
Qed.

Lemma addDefinition_unique formData wt dc dr st :
  ValidDefinitionForm formData wt dc dr ->
  Shard.findFirst (has_reference dr) (contents (Js.slice 0 2 wt) st) = None ->
  addDefinition formData st =
  (msg "Your definition has been added successfully. Refresh the page and check it out."
       success,
   <[Js.slice 0 2 wt :=
       Shard.updateWhere (fun word => String.eqb (text word) wt)
         (push_definition (newDefinition dc dr))
         (contents (Js.slice 0 2 wt) st)]> st).
Proof.
  intros Hv Hf. unfold addDefinition. rewrite (safeParse_definition _ _ _ _ Hv).
  step_action. rewrite Hf. simpl.
  now rewrite contents_insert_eq, insert_insert_eq.
Qed.

Lemma addExample_valid formData wt et er st :
  ValidExampleForm formData wt et er ->
  addExample formData st =
  (msg "The example has been added successfully. Refresh the page and check it out."
       success,
   <[Js.slice 0 2 wt :=
       Shard.updateWhere (fun word => String.eqb (text word) wt)
         (push_example (newExample et er))
         (contents (Js.slice 0 2 wt) st)]> st).
Proof.
  intros Hv. unfold addExample. rewrite (safeParse_example _ _ _ _ Hv).
  now step_action.
Qed.

Lemma no_text_no_match wt (sh : Shard.t) :
  (forall i w, sh !! i = Some w -> text w <> wt) ->
  Shard.findFirst (fun word => String.eqb (text word) wt) sh = None.
Proof.
  intros H. apply findFirst_None. intros i w Hi. apply String.eqb_neq. eauto.
Qed.

(** ** [Report] on a valid form *)

Lemma first_match_text wt (sh : Shard.t) i w :
  first_match (fun word => String.eqb (text word) wt) sh i w -> text w = wt.
Proof. intros (_ & Hp & _). now apply String.eqb_eq. Qed.

Lemma Report_unauthenticated session formData st :
  has_user session = false ->
  Report session formData st =
  (msg "You have to login in order to report items." error, st).
Proof. intros H. unfold Report. now rewrite H. Qed.

Lemma Report_sub_record session formData wt element_type st i w :
  has_user session = true ->
  ValidReportForm formData wt element_type ->
  sub_record_type element_type ->
  first_match (fun word => String.eqb (text word) wt)
    (contents (Js.slice 0 2 wt) st) i w ->
  Report session formData st = (msg "Something went wrong!" error, st).
Proof.
  intros Hs Hv Ht Hm. unfold Report. rewrite Hs. simpl.
  rewrite (safeParse_report _ _ _ Hv). step_action.
  rewrite (indexOf_head_first _ _ _ _ Hm). simpl.
  pose proof (first_match_text _ _ _ _ Hm) as Hw. destruct Hm as (Hi & _).
  rewrite Hi. rewrite truthy_length by (rewrite Hw; destruct Hv; lia). simpl.
  assert (element_type <> "word") as Hne
    by (destruct Ht as [->|[->| ->]]; discriminate).
  destruct (reportElement_throws w _ Hne) as [e He].
  replace (negb _) with false by (destruct Ht as [->|[->| ->]]; reflexivity).
  rewrite He. unfold something_went_wrong.
  now rewrite (insert_contents_present _ _ _ (contents_nonempty_lookup _ _ _ _ Hi)).
Qed.

Lemma Report_word session formData wt st i w :
  has_user session = true ->
  ValidReportForm formData wt "word" ->
  first_match (fun word => String.eqb (text word) wt)
    (contents (Js.slice 0 2 wt) st) i w ->
  Report session formData st =
  (msg "Done. Thanks for reporting." success,
   <[Js.slice 0 2 wt := <[i := penalised w]> (contents (Js.slice 0 2 wt) st)]> st).
Proof.
  intros Hs Hv Hm. unfold Report. rewrite Hs. simpl.
  rewrite (safeParse_report _ _ _ Hv). step_action.
  rewrite (indexOf_head_first _ _ _ _ Hm). simpl.
  pose proof (first_match_text _ _ _ _ Hm) as Hw. destruct Hm as (Hi & _).
  rewrite Hi. rewrite truthy_length by (rewrite Hw; destruct Hv; lia). simpl.
  unfold Shard.updateAt. rewrite contents_insert_eq, Hi. simpl.
  now rewrite insert_insert_eq.
Qed.

(** ** Every stored Word has a text *)

Lemma safeParse_definition_inv formData data :
  Zod.safeParse addDefinitionSchema
    [ ("word_text", FormData_get formData "word_text");
      ("def_content", FormData_get formData "def_content");
      ("def_reference", FormData_get formData "def_reference") ] = inr data ->
  exists wt dc dr,
    ValidDefinitionForm formData wt dc dr /\
    data = [("word_text", wt); ("def_content", dc); ("def_reference", dr)].
Proof.
  unfold Zod.safeParse.
  destruct (FormData_get formData "word_text") as [[wt|?]|] eqn:E1;
    destruct (FormData_get formData "def_content") as [[dc|?]|] eqn:E2;
    destruct (FormData_get formData "def_reference") as [[dr|?]|] eqn:E3;
    with_strategy opaque [Nat.leb] simpl;
    repeat match goal with
           | |- context [(?a <=? ?b)%nat] => destruct (Nat.leb_spec a b)
           end; simpl; try discriminate.
  intros [= <-]. exists wt, dc, dr. split; [|reflexivity].
  constructor; auto; lia.
Qed.

Lemma texts_nonempty_empty : texts_nonempty ∅.
Proof. intros k i w H. unfold contents in H. rewrite lookup_empty in H. destruct i; discriminate. Qed.

Lemma texts_nonempty_insert (k : string) (sh : Shard.t) (st : Store) :
  texts_nonempty st ->
  (forall i w, sh !! i = Some w -> text w <> "") ->
  texts_nonempty (<[k := sh]> st).
Proof.
  intros Hst Hsh k' i w Hi. destruct (decide (k = k')) as [<-|Hne].
  - rewrite contents_insert_eq in Hi. eauto.
  - rewrite contents_insert_ne in Hi by assumption. eauto.
Qed.

Lemma texts_updateWhere p f (sh : Shard.t) :
  (forall w, text (f w) = text w) ->
  (forall i w, sh !! i = Some w -> text w <> "") ->
  forall i w, Shard.updateWhere p f sh !! i = Some w -> text w <> "".
Proof.
  intros Hf Hsh i w. destruct (Shard.findFirst p sh) as [w0|] eqn:E.
  - apply findFirst_Some in E as [j Hm].
    rewrite (updateWhere_first_match _ _ _ _ _ Hm). destruct Hm as (Hj & _).
    destruct (decide (j = i)) as [->|Hne].
    + rewrite list_lookup_insert_eq by (now apply lookup_lt_Some in Hj).
      intros [= <-]. rewrite Hf. eauto.
    + rewrite list_lookup_insert_ne by assumption. eauto.
  - rewrite updateWhere_no_match by assumption. eauto.
Qed.

Lemma texts_nonempty_run op st :
  texts_nonempty st -> texts_nonempty (snd (run op st)).
Proof.
  intros Hst.
  assert (Hopen : forall key, texts_nonempty (<[key := contents key st]> st))
    by (intros key; apply texts_nonempty_insert; eauto).
  destruct op as [fd|fd|fd|fd|session fd]; simpl.
  - destruct (Zod.safeParse addDefinitionSchema
      [ ("word_text", FormData_get fd "word_text");
        ("def_content", FormData_get fd "def_content");
        ("def_reference", FormData_get fd "def_reference") ]) as [errs|data] eqn:E.
    + unfold addWord. now rewrite E.
    + apply safeParse_definition_inv in E as (wt & dc & dr & Hv & _).
      destruct (lookup wt st) as [w|] eqn:Hl.
      * now rewrite (addWord_existing _ _ _ _ _ _ Hv Hl).
      * rewrite (addWord_fresh _ _ _ _ _ Hv Hl). simpl.
        apply texts_nonempty_insert; [assumption|].
        intros i w [Hi|[_ Hi]]%lookup_app_Some; [eauto|].
        apply list_lookup_singleton_Some in Hi as [_ <-]. simpl.
        apply toLowerCase_nonempty, long_nonempty. destruct Hv. lia.
  - unfold addDefinition. destruct (Zod.safeParse _ _) as [errs|data]; simpl; [assumption|].
    step_action. destruct (Js.truthy_opt _); simpl; [apply Hopen|].
    rewrite contents_insert_eq, insert_insert_eq.
    apply texts_nonempty_insert; [assumption|]. apply texts_updateWhere; eauto.
  - unfold addExample. destruct (Zod.safeParse _ _) as [errs|data]; simpl; [assumption|].
    step_action.
    apply texts_nonempty_insert; [assumption|]. apply texts_updateWhere; eauto.
  - unfold addMention. destruct (Zod.safeParse _ _) as [errs|data]; simpl; [assumption|].
    step_action.
    apply texts_nonempty_insert; [assumption|]. apply texts_updateWhere; eauto.
  - unfold Report. destruct (has_user session); simpl; [|assumption].
    destruct (Zod.safeParse _ _) as [errs|data]; simpl; [assumption|].
    step_action.
    set (key := Js.slice 0 2 (Zod.field data "word_text")).
    destruct (head _) as [i|]; simpl; [|apply Hopen].
    destruct (contents key st !! i) as [w|] eqn:Hi; [|apply Hopen].
    destruct (negb (Js.truthy (text w))); [apply Hopen|].
    destruct (negb _); [apply Hopen|].
    destruct (reportElement w _) as [e|w'] eqn:Hr; [apply Hopen|].
    unfold Shard.updateAt. rewrite contents_insert_eq, Hi; simpl.
    rewrite insert_insert_eq. apply texts_nonempty_insert; [assumption|].
    apply reportElement_inr in Hr as [_ ->].
    intros j w'. destruct (decide (i = j)) as [->|Hne].
    + rewrite list_lookup_insert_eq by (now apply lookup_lt_Some in Hi).
      intros [= <-]. simpl. eauto.
    + rewrite list_lookup_insert_ne by assumption. eauto.
Qed.

(** * The claims *)

(** ** Sample facts *)

Lemma sample_add_test_valid :
  ValidDefinitionForm Sample.add_test "test" "a procedure to establish quality"
    "Oxford Dictionary".
Proof. constructor; simpl; first [reflexivity | lia]. Qed.

Lemma sample_store_eq : Sample.store = <["te" := [Sample.test_word]]> ∅.
Proof. vm_compute. reflexivity. Qed.

Lemma sample_first_match :
  first_match (fun word => String.eqb (text word) "test")
    (contents (Js.slice 0 2 "test") Sample.store) 0 Sample.test_word.
Proof.
  rewrite sample_store_eq. repeat split.
  intros j w' Hj. lia.
Qed.

Lemma sample_texts_nonempty : texts_nonempty Sample.store.
Proof.
  apply (texts_nonempty_run (OpAddWord Sample.add_test) ∅), texts_nonempty_empty.
Qed.

(** ** C1 *)

(** C1 (the code departs from the claim).  The stored word [test] has a
    definition of reference [Oxford Dictionary], whose [NV] is 0.  An
    authenticated report of that definition is answered with the message of
    the [catch] block and leaves the store as it was: the counter of the
    definition is still 0, not 2. *)
Theorem Report_definition_score_unchanged :
  has_user Sample.alice = true /\
  lookup "test" Sample.store = Some Sample.test_word /\
  identifies Sample.test_word "definition" "Oxford Dictionary" /\
  Report Sample.alice (Sample.report_definition "Oxford Dictionary") Sample.store
  = (msg "Something went wrong!" error, Sample.store) /\
  def_NV <$> definitions Sample.test_word = [0].
Proof.
  split; [reflexivity|]. split; [vm_compute; reflexivity|]. split.
  - left. split; [reflexivity|].
    exists (newDefinition "a procedure to establish quality" "Oxford Dictionary").
    split; [apply list_elem_of_here | reflexivity].
  - split; [|reflexivity].
    apply (Report_sub_record _ _ "test" "definition" _ 0%nat Sample.test_word).
    + reflexivity.
    + constructor; simpl; first [reflexivity | lia].
    + left; reflexivity.
    + apply sample_first_match.
Qed.

(** ** C2 *)

(** C2, the claim as stated fails: after [addWord] of [test] on the empty
    store, no lookup of [test] returns a Word whose example and mention
    collections are empty. *)
Lemma addWord_lookup_collections_not_empty :
  ValidDefinitionForm Sample.add_test "test" "a procedure to establish quality"
    "Oxford Dictionary" /\
  lookup "test" ∅ = None /\
  ~ (exists w, lookup "test" (snd (addWord Sample.add_test ∅)) = Some w /\
       seeded_with_empty_collections w "a procedure to establish quality"
         "Oxford Dictionary").
Proof.
  split; [apply sample_add_test_valid|]. split; [reflexivity|].
  intros (w & Hl & _ & _ & _ & He & _).
  assert (lookup "test" (snd (addWord Sample.add_test ∅)) = Some Sample.test_word)
    as Hl' by (vm_compute; reflexivity).
  rewrite Hl' in Hl. injection Hl as <-. discriminate He.
Qed.

(** C2, amended.  For every form that passes validation and whose text is
    not stored yet, [addWord] succeeds and a lookup of the same text right
    after it returns a Word of the lowercased text with [V = 1], [NV = 0],
    exactly one definition, built from the submitted content and reference,
    and example and mention collections that hold one placeholder record
    each (empty strings, [V = 1], [NV = 0]). *)
Theorem addWord_then_lookup formData wt dc dr st :
  ValidDefinitionForm formData wt dc dr ->
  lookup wt st = None ->
  outcome (fst (addWord formData st)) = Succeeded /\
  exists w, lookup wt (snd (addWord formData st)) = Some w /\
    text w = Js.toLowerCase wt /\ seeded_with_placeholders w dc dr.
Proof.
  intros Hv Hl. rewrite (addWord_fresh _ _ _ _ _ Hv Hl). split; [reflexivity|].
  exists (newWord wt dc dr). split; [now apply lookup_after_add|].
  repeat split.
Qed.

Lemma addWord_then_lookup_witness :
  outcome (fst (addWord Sample.add_test ∅)) = Succeeded /\
  exists w, lookup "test" (snd (addWord Sample.add_test ∅)) = Some w /\
    text w = Js.toLowerCase "test" /\
    seeded_with_placeholders w "a procedure to establish quality" "Oxford Dictionary".
Proof.
  apply (addWord_then_lookup Sample.add_test "test"
           "a procedure to establish quality" "Oxford Dictionary" ∅).
  - constructor; simpl; first [reflexivity | lia].
  - reflexivity.
Defined.

(** ** C3 *)

(** C3 (the code departs from the claim).  [addWord] of [ruN] stores the
    Word [run], and a lookup or a second [addWord] of [ruN] locates it.
    [addDefinition] and [Report] compare the stored text with the submitted
    one as it is: for [ruN] they reach the shard of [ru] and locate
    nothing, so the definition is dropped behind a success message and the
    report is answered with word-not-found. *)
Theorem mixed_case_text_not_located :
  fst (addWord Sample.add_ruN ∅) = msg "run has been successfully added." success /\
  lookup "ruN" Sample.run_store = Some Sample.run_word /\
  addWord Sample.add_ruN Sample.run_store = (duplicate_word "run", Sample.run_store) /\
  addDefinition Sample.define_ruN Sample.run_store =
    (msg "Your definition has been added successfully. Refresh the page and check it out."
         success, Sample.run_store) /\
  definitions Sample.run_word = [newDefinition "to move quickly on foot" "Oxford Dictionary"] /\
  Report Sample.alice Sample.report_ruN Sample.run_store =
    (msg "Cannot find the word undefined" error, Sample.run_store).
Proof. repeat split; vm_compute; reflexivity. Qed.

(** ** C4 *)

(** C4, the claim as stated fails: an authenticated report of a definition
    of [test] under the reference [Cambridge Dictionary], which no
    definition of [test] has, is not answered with [ElementNotFound]. *)
Lemma missing_element_is_a_generic_fault :
  has_user Sample.alice = true /\
  lookup "test" Sample.store = Some Sample.test_word /\
  ~ identifies Sample.test_word "definition" "Cambridge Dictionary" /\
  ~ rejected_as ElementNotFound
      (Report Sample.alice (Sample.report_definition "Cambridge Dictionary") Sample.store)
      Sample.store.
Proof.
  split; [reflexivity|]. split; [vm_compute; reflexivity|]. split.
  - intros [[_ (d & Hin & Hr)] | [[H _] | [H _]]]; try discriminate H.
    apply list_elem_of_singleton in Hin. subst d. discriminate Hr.
  - intros [Ho _]. vm_compute in Ho. discriminate Ho.
Qed.

(** C4, amended.  For every authenticated report with a sub-record element
    type (definition, example, mention) of a word that is located, and every
    element identifier that identifies no sub-record of that kind of the
    word, the report fails with the answer of the [catch] block
    ([Something went wrong!], which reads as a storage fault, there being no
    answer of its own for a missing element) and the store is unchanged.
    The request has no field for the identifier, so it stands beside the
    form. *)
Theorem Report_missing_element session formData wt element_type element_id st i w :
  has_user session = true ->
  ValidReportForm formData wt element_type ->
  sub_record_type element_type ->
  first_match (fun word => String.eqb (text word) wt)
    (contents (Js.slice 0 2 wt) st) i w ->
  ~ identifies w element_type element_id ->
  fst (Report session formData st) = msg "Something went wrong!" error /\
  rejected_as StorageFault (Report session formData st) st.
Proof.
  intros Hs Hv Ht Hm _.
  rewrite (Report_sub_record _ _ _ _ _ _ _ Hs Hv Ht Hm).
  repeat split.
Qed.

Lemma Report_missing_element_witness :
  fst (Report Sample.alice (Sample.report_definition "Cambridge Dictionary") Sample.store)
    = msg "Something went wrong!" error /\
  rejected_as StorageFault
    (Report Sample.alice (Sample.report_definition "Cambridge Dictionary") Sample.store)
    Sample.store.
Proof.
  apply (Report_missing_element Sample.alice
           (Sample.report_definition "Cambridge Dictionary") "test" "definition"
           "Cambridge Dictionary" Sample.store 0%nat Sample.test_word).
  - reflexivity.
  - constructor; simpl; first [reflexivity | lia].
  - left; reflexivity.
  - apply sample_first_match.
  - intros [[_ (d & Hin & Hr)] | [[H _] | [H _]]]; try discriminate H.
    apply list_elem_of_singleton in Hin. subst d. discriminate Hr.
Defined.

(** ** C5 *)

(** C5.  Two calls of [addWord] in sequence with the same text, on a store
    that does not hold it: the first answers with a success, the second
    with the duplicate-word answer, which is of type warning and not of
    type error, and afterwards the store holds exactly one Word of that
    text. *)
Theorem addWord_twice fd1 fd2 wt dc1 dr1 dc2 dr2 st :
  ValidDefinitionForm fd1 wt dc1 dr1 ->
  ValidDefinitionForm fd2 wt dc2 dr2 ->
  not_stored (Js.toLowerCase wt) st ->
  msg_type (message (fst (addWord fd1 st))) = success /\
  fst (addWord fd2 (snd (addWord fd1 st))) = duplicate_word (Js.toLowerCase wt) /\
  outcome (fst (addWord fd2 (snd (addWord fd1 st)))) = DuplicateWord /\
  msg_type (message (fst (addWord fd2 (snd (addWord fd1 st))))) = warning /\
  stored_once (Js.toLowerCase wt) (snd (addWord fd2 (snd (addWord fd1 st)))).
Proof.
  intros Hv1 Hv2 Hn. pose proof (not_stored_lookup _ _ Hn) as Hl.
  rewrite (addWord_fresh _ _ _ _ _ Hv1 Hl). simpl.
  rewrite (addWord_existing _ _ _ _ _ _ Hv2 (lookup_after_add wt dc1 dr1 st Hl)).
  simpl. repeat split. now apply stored_once_after_add.
Qed.

Lemma addWord_twice_witness :
  msg_type (message (fst (addWord Sample.add_test ∅))) = success /\
  fst (addWord Sample.add_test_again (snd (addWord Sample.add_test ∅)))
    = duplicate_word (Js.toLowerCase "test") /\
  outcome (fst (addWord Sample.add_test_again (snd (addWord Sample.add_test ∅))))
    = DuplicateWord /\
  msg_type (message (fst (addWord Sample.add_test_again (snd (addWord Sample.add_test ∅)))))
    = warning /\
  stored_once (Js.toLowerCase "test")
    (snd (addWord Sample.add_test_again (snd (addWord Sample.add_test ∅)))).
Proof.
  apply (addWord_twice Sample.add_test Sample.add_test_again "test"
           "a procedure to establish quality" "Oxford Dictionary"
           "an examination of knowledge" "Cambridge Dictionary" ∅).
  - constructor; simpl; first [reflexivity | lia].
  - constructor; simpl; first [reflexivity | lia].
  - intros k i (w & Hi & _). unfold contents in Hi. rewrite lookup_empty in Hi.
    destruct i; discriminate Hi.
Defined.

(** ** C6 *)

(** C6.  On a form that passes validation, [addDefinition] fails with the
    duplicate-reference answer, leaving the store as it was, whenever some
    Word of the shard of the submitted text, the target or another one, has
    a definition of the submitted reference; when no Word of the shard has
    one, it answers with a success and the target Word, the first one of the
    submitted text, has the new definition (the submitted content and
    reference, [V = 1], [NV = 0]) appended at the end of its definitions,
    its other fields and every other Word being as they were. *)
Theorem addDefinition_reference_guard formData wt dc dr st :
  ValidDefinitionForm formData wt dc dr ->
  texts_nonempty st ->
  ((exists i w d, contents (Js.slice 0 2 wt) st !! i = Some w /\
       d ∈ definitions w /\ def_reference d = dr) ->
   fst (addDefinition formData st) =
     msg "Failed: there is already a definition from the same reference included!" error /\
   rejected_as DuplicateReference (addDefinition formData st) st) /\
  ((forall i w d, contents (Js.slice 0 2 wt) st !! i = Some w ->
       d ∈ definitions w -> def_reference d <> dr) ->
   forall i w,
     first_match (fun word => String.eqb (text word) wt)
       (contents (Js.slice 0 2 wt) st) i w ->
     addDefinition formData st =
     (msg "Your definition has been added successfully. Refresh the page and check it out."
          success,
      <[Js.slice 0 2 wt :=
          <[i := {| text := text w;
                    definitions :=
                      (definitions w ++
                         [ {| def_text := dc; def_reference := dr;
                              def_V := 1; def_NV := 0 |} ])%list;
                    examples := examples w;
                    mentions := mentions w;
                    V := V w;
                    NV := NV w |}]>
            (contents (Js.slice 0 2 wt) st)]> st)).
Proof.
  intros Hv Hst. split.
  - intros (i & w & d & Hi & Hd & Hr).
    destruct (Shard.findFirst (has_reference dr) (contents (Js.slice 0 2 wt) st))
      as [w'|] eqn:E.
    + pose proof E as (j & Hj & _)%findFirst_Some.
      rewrite (addDefinition_duplicate _ _ _ _ _ _ Hv E (Hst _ _ _ Hj)).
      repeat split.
    + exfalso. pose proof (proj1 (findFirst_None _ _) E i w Hi) as Hf.
      apply (proj1 (has_reference_false _ _) Hf d Hd Hr).
  - intros Hno i w Hm.
    rewrite (addDefinition_unique _ _ _ _ _ Hv).
    + now rewrite (updateWhere_first_match _ _ _ _ _ Hm).
    + apply findFirst_None. intros j w' Hj. apply has_reference_false. eauto.
Qed.

Lemma addDefinition_reference_guard_witness :
  (fst (addDefinition Sample.define_test_same_reference Sample.store) =
     msg "Failed: there is already a definition from the same reference included!" error /\
   rejected_as DuplicateReference
     (addDefinition Sample.define_test_same_reference Sample.store) Sample.store) /\
  addDefinition Sample.add_test_again Sample.store =
    (msg "Your definition has been added successfully. Refresh the page and check it out."
         success,
     <[Js.slice 0 2 "test" :=
         <[0%nat := {| text := text Sample.test_word;
                       definitions :=
                         (definitions Sample.test_word ++
                            [ {| def_text := "an examination of knowledge";
                                 def_reference := "Cambridge Dictionary";
                                 def_V := 1; def_NV := 0 |} ])%list;
                       examples := examples Sample.test_word;
                       mentions := mentions Sample.test_word;
                       V := V Sample.test_word;
                       NV := NV Sample.test_word |}]>
           (contents (Js.slice 0 2 "test") Sample.store)]> Sample.store).
Proof.
  split.
  - apply (proj1 (addDefinition_reference_guard Sample.define_test_same_reference
             "test" "an examination of knowledge" "Oxford Dictionary" Sample.store
             ltac:(constructor; simpl; first [reflexivity | lia])
             sample_texts_nonempty)).
    exists 0%nat, Sample.test_word,
      (newDefinition "a procedure to establish quality" "Oxford Dictionary").
    split; [vm_compute; reflexivity|]. split; [apply list_elem_of_here | reflexivity].
  - apply (proj2 (addDefinition_reference_guard Sample.add_test_again
             "test" "an examination of knowledge" "Cambridge Dictionary" Sample.store
             ltac:(constructor; simpl; first [reflexivity | lia])
             sample_texts_nonempty)).
    + intros i w d Hi Hd. rewrite sample_store_eq in Hi.
      destruct i as [|i]; [|destruct i; discriminate Hi].
      injection Hi as <-. apply list_elem_of_singleton in Hd. subst d. discriminate.
    + apply sample_first_match.
Defined.

(** ** C7 *)

(** C7.  When the predicate of [updateWhere] matches no Word of the shard,
    the shard is left as it is; so [addExample], and [addDefinition] once
    its reference guard has passed, called with a valid form for a text
    that is not stored, answer with a success and leave the Words of every
    shard unchanged. *)
Theorem unmatched_update_is_silent p f (sh : Shard.t) fdE fdD wt et er dc dr st :
  (forall i w, sh !! i = Some w -> p w = false) ->
  ValidExampleForm fdE wt et er ->
  ValidDefinitionForm fdD wt dc dr ->
  (forall i w, contents (Js.slice 0 2 wt) st !! i = Some w -> text w <> wt) ->
  (forall i w d, contents (Js.slice 0 2 wt) st !! i = Some w ->
     d ∈ definitions w -> def_reference d <> dr) ->
  Shard.updateWhere p f sh = sh /\
  silent_no_op (addExample fdE st) st /\
  silent_no_op (addDefinition fdD st) st.
Proof.
  intros Hp HvE HvD Hno Href. split; [|split].
  - apply updateWhere_no_match. now apply findFirst_None.
  - rewrite (addExample_valid _ _ _ _ _ HvE).
    rewrite updateWhere_no_match by now apply no_text_no_match.
    repeat split. intros k. apply contents_insert_contents.
  - rewrite (addDefinition_unique _ _ _ _ _ HvD).
    + rewrite updateWhere_no_match by now apply no_text_no_match.
      repeat split. intros k. apply contents_insert_contents.
    + apply findFirst_None. intros j w' Hj. apply has_reference_false. eauto.
Qed.

Lemma unmatched_update_is_silent_witness :
  Shard.updateWhere (fun word => String.eqb (text word) "tester")
    (push_example (newExample "The tester found a defect." "a primer"))
    [Sample.test_word]
    = [Sample.test_word] /\
  silent_no_op (addExample Sample.example_for_tester Sample.store) Sample.store /\
  silent_no_op (addDefinition Sample.define_tester Sample.store) Sample.store.
Proof.
  apply (unmatched_update_is_silent
           (fun word => String.eqb (text word) "tester")
           (push_example (newExample "The tester found a defect." "a primer"))
           [Sample.test_word] Sample.example_for_tester Sample.define_tester
           "tester" "The tester found a defect." "a primer"
           "a person who tests something" "Cambridge Dictionary" Sample.store).
  - intros i w Hi. destruct i as [|i]; [|destruct i; discriminate Hi].
    injection Hi as <-. reflexivity.
  - constructor; simpl; first [reflexivity | lia].
  - constructor; simpl; first [reflexivity | lia].
  - intros i w Hi. rewrite sample_store_eq in Hi.
    destruct i as [|i]; [|destruct i; discriminate Hi].
    injection Hi as <-. discriminate.
  - intros i w d Hi Hd. rewrite sample_store_eq in Hi.
    destruct i as [|i]; [|destruct i; discriminate Hi].
    injection Hi as <-. apply list_elem_of_singleton in Hd. subst d. discriminate.
Defined.

(** ** C8 *)

(** C8.  Every report by a caller who is not authenticated is rejected with
    the login answer, which reads as [Unauthorized], and the store is the
    one it was. *)
Theorem Report_requires_login session formData st :
  has_user session = false ->
  fst (Report session formData st) =
    msg "You have to login in order to report items." error /\
  rejected_as Unauthorized (Report session formData st) st.
Proof.
  intros Hs. rewrite (Report_unauthenticated _ _ _ Hs). repeat split.
Qed.

Lemma Report_requires_login_witness :
  fst (Report None (Sample.report_definition "Oxford Dictionary") Sample.store) =
    msg "You have to login in order to report items." error /\
  rejected_as Unauthorized
    (Report None (Sample.report_definition "Oxford Dictionary") Sample.store)
    Sample.store.
Proof.
  apply (Report_requires_login None (Sample.report_definition "Oxford Dictionary")
           Sample.store).
  reflexivity.
Defined.

(** ** C9 *)

(** C9.  For each of the five operations, on every input and every store,
    every record of the store before the operation (a Word, a definition,
    an example, a mention) is still at its place after it, and neither its
    [V] nor its [NV] is smaller than before. *)
Theorem scores_never_decrease op st : store_le st (snd (run op st)).
Proof.
  destruct op; simpl;
    [ apply addWord_le | apply addDefinition_le | apply addExample_le
    | apply addMention_le | apply Report_le ].
Qed.

(** ** C10 *)

(** C10.  [reportSchema] has the two properties [word_text] and
    [report_element] and no other; two reports whose forms agree on these
    two fields, by callers of the same authentication status, give the same
    answer and the same store, whatever else the forms carry. *)
Theorem Report_reads_two_fields session1 session2 fd1 fd2 st :
  has_user session1 = has_user session2 ->
  FormData_get fd1 "word_text" = FormData_get fd2 "word_text" ->
  FormData_get fd1 "report_element" = FormData_get fd2 "report_element" ->
  fst <$> reportSchema = ["word_text"; "report_element"] /\
  Report session1 fd1 st = Report session2 fd2 st.
Proof.
  intros Hs Hw Hr. split; [reflexivity|].
  unfold Report. now rewrite Hs, Hw, Hr.
Qed.

Lemma Report_reads_two_fields_witness :
  fst <$> reportSchema = ["word_text"; "report_element"] /\
  Report Sample.alice (Sample.report_definition "Oxford Dictionary") Sample.store =
  Report (Some {| user := Some "bob" |})
    (Sample.report_definition "Cambridge Dictionary") Sample.store.
Proof.
  apply (Report_reads_two_fields Sample.alice (Some {| user := Some "bob" |})
           (Sample.report_definition "Oxford Dictionary")
           (Sample.report_definition "Cambridge Dictionary") Sample.store);
    reflexivity.
Defined.

(** * Further properties *)

(** ** Forms that fail validation *)

Lemma safeParse_mention formData wt ti hl :
  ValidMentionForm formData wt ti hl ->
  Zod.safeParse addMentionSchema
    [ ("word_text", FormData_get formData "word_text");
      ("mention_title", FormData_get formData "mention_title");
      ("mention_hyperlink", FormData_get formData "mention_hyperlink") ]
  = inr [("word_text", wt); ("mention_title", ti); ("mention_hyperlink", hl)].
Proof.
  intros [-> -> -> [W1 W2]%leb_range [C1 C2]%leb_range H].
  unfold Zod.safeParse; with_strategy opaque [Nat.leb Js.startsWith] simpl.
  now rewrite W1, W2, C1, C2, H.
Qed.

Ltac split_checks :=
  repeat match goal with
         | |- context [(?a <=? ?b)%nat] => destruct (Nat.leb_spec a b)
         | |- context [Js.startsWith ?p ?s] => destruct (Js.startsWith p s) eqn:?
         end.

Lemma safeParse_definition_errors formData errs :
  Zod.safeParse addDefinitionSchema
    [ ("word_text", FormData_get formData "word_text");
      ("def_content", FormData_get formData "def_content");
      ("def_reference", FormData_get formData "def_reference") ] = inl errs ->
  errs <> [] /\ ~ exists wt dc dr, ValidDefinitionForm formData wt dc dr.
Proof.
  intros H. split.
  - unfold Zod.safeParse in H. destruct (Zod.parse_props _ _) as [[|e l] d];
      [discriminate | injection H as <-; discriminate].
  - intros (wt & dc & dr & Hv). rewrite (safeParse_definition _ _ _ _ Hv) in H.
    discriminate.
Qed.

Lemma safeParse_example_inv formData data :
  Zod.safeParse addExampleSchema
    [ ("word_text", FormData_get formData "word_text");
      ("example_text", FormData_get formData "example_text");
      ("example_reference", FormData_get formData "example_reference") ] = inr data ->
  exists wt et er,
    ValidExampleForm formData wt et er /\
    data = [("word_text", wt); ("example_text", et); ("example_reference", er)].
Proof.
  unfold Zod.safeParse.
  destruct (FormData_get formData "word_text") as [[wt|?]|] eqn:E1;
    destruct (FormData_get formData "example_text") as [[et|?]|] eqn:E2;
    destruct (FormData_get formData "example_reference") as [[er|?]|] eqn:E3;
    with_strategy opaque [Nat.leb] simpl; split_checks; simpl; try discriminate.
  intros [= <-]. exists wt, et, er. split; [|reflexivity].
  constructor; auto; lia.
Qed.

Lemma safeParse_mention_inv formData data :
  Zod.safeParse addMentionSchema
    [ ("word_text", FormData_get formData "word_text");
      ("mention_title", FormData_get formData "mention_title");
      ("mention_hyperlink", FormData_get formData "mention_hyperlink") ] = inr data ->
  exists wt ti hl,
    ValidMentionForm formData wt ti hl /\
    data = [("word_text", wt); ("mention_title", ti); ("mention_hyperlink", hl)].
Proof.
  unfold Zod.safeParse.
  destruct (FormData_get formData "word_text") as [[wt|?]|] eqn:E1;
    destruct (FormData_get formData "mention_title") as [[ti|?]|] eqn:E2;
    destruct (FormData_get formData "mention_hyperlink") as [[hl|?]|] eqn:E3;
    with_strategy opaque [Nat.leb Js.startsWith] simpl; split_checks; simpl;
    try discriminate.
  intros [= <-]. exists wt, ti, hl. split; [|reflexivity].
  constructor; auto; lia.
Qed.

Lemma safeParse_report_inv formData data :
  Zod.safeParse reportSchema
    [ ("word_text", FormData_get formData "word_text");
      ("report_element", FormData_get formData "report_element") ] = inr data ->
  exists wt re,
    ValidReportForm formData wt re /\
    data = [("word_text", wt); ("report_element", re)].
Proof.
  unfold Zod.safeParse.
  destruct (FormData_get formData "word_text") as [[wt|?]|] eqn:E1;
    destruct (FormData_get formData "report_element") as [[re|?]|] eqn:E2;
    with_strategy opaque [Nat.leb] simpl; split_checks; simpl; try discriminate.
  intros [= <-]. exists wt, re. split; [|reflexivity].
  constructor; auto; lia.
Qed.

Lemma safeParse_nonempty schema o errs :
  Zod.safeParse schema o = inl errs -> errs <> [].
Proof.
  unfold Zod.safeParse. destruct (Zod.parse_props _ _) as [[|e l] d];
    [discriminate | intros [= <-]; discriminate].
Qed.

(** ** The cases of each action *)

Lemma contents_opened (k key : string) (st : Store) :
  contents k (opened key st) = contents k st.
Proof. apply contents_insert_contents. Qed.

Lemma addWord_cases formData st :
  (exists errs, errs <> [] /\
     (~ exists wt dc dr, ValidDefinitionForm formData wt dc dr) /\
     addWord formData st = (form_error errs, st)) \/
  (exists wt dc dr w, ValidDefinitionForm formData wt dc dr /\
     lookup wt st = Some w /\
     addWord formData st = (duplicate_word (Js.toLowerCase wt), st)) \/
  (exists wt dc dr, ValidDefinitionForm formData wt dc dr /\
     lookup wt st = None /\
     addWord formData st =
     (msg (Js.toLowerCase wt ++ " has been successfully added.") success,
      <[Js.slice 0 2 (Js.toLowerCase wt) :=
          Shard.append (newWord wt dc dr)
            (contents (Js.slice 0 2 (Js.toLowerCase wt)) st)]> st)).
Proof.
  destruct (Zod.safeParse addDefinitionSchema
      [ ("word_text", FormData_get formData "word_text");
        ("def_content", FormData_get formData "def_content");
        ("def_reference", FormData_get formData "def_reference") ])
    as [errs|data] eqn:E.
  - left. exists errs. destruct (safeParse_definition_errors _ _ E) as [H1 H2].
    repeat split; [assumption..|]. unfold addWord. now rewrite E.
  - right. apply safeParse_definition_inv in E as (wt & dc & dr & Hv & _).
    destruct (lookup wt st) as [w|] eqn:Hl.
    + left. exists wt, dc, dr, w. eauto using addWord_existing.
    + right. exists wt, dc, dr. eauto using addWord_fresh.
Qed.

Lemma addDefinition_cases formData st :
  (exists errs, errs <> [] /\
     (~ exists wt dc dr, ValidDefinitionForm formData wt dc dr) /\
     addDefinition formData st = (form_error errs, st)) \/
  (exists wt dc dr w, ValidDefinitionForm formData wt dc dr /\
     Shard.findFirst (has_reference dr) (contents (Js.slice 0 2 wt) st) = Some w /\
     text w <> "" /\
     addDefinition formData st =
     (msg "Failed: there is already a definition from the same reference included!"
          error, st)) \/
  (exists wt dc dr, ValidDefinitionForm formData wt dc dr /\
     Js.truthy_opt
       (text <$> Shard.findFirst (has_reference dr) (contents (Js.slice 0 2 wt) st))
     = false /\
     addDefinition formData st =
     (msg "Your definition has been added successfully. Refresh the page and check it out."
          success,
      <[Js.slice 0 2 wt :=
          Shard.updateWhere (fun word => String.eqb (text word) wt)
            (push_definition (newDefinition dc dr))
            (contents (Js.slice 0 2 wt) st)]> st)).
Proof.
  destruct (Zod.safeParse addDefinitionSchema
      [ ("word_text", FormData_get formData "word_text");
        ("def_content", FormData_get formData "def_content");
        ("def_reference", FormData_get formData "def_reference") ])
    as [errs|data] eqn:E.
  - left. exists errs. destruct (safeParse_definition_errors _ _ E) as [H1 H2].
    repeat split; [assumption..|]. unfold addDefinition. now rewrite E.
  - right. apply safeParse_definition_inv in E as (wt & dc & dr & Hv & _).
    destruct (Js.truthy_opt (text <$>
      Shard.findFirst (has_reference dr) (contents (Js.slice 0 2 wt) st))) eqn:Ht.
    + left. destruct (Shard.findFirst _ _) as [w|] eqn:Hf; [|discriminate].
      exists wt, dc, dr, w. simpl in Ht.
      assert (text w <> "") by (intros Hw; rewrite Hw in Ht; discriminate).
      eauto using addDefinition_duplicate.
    + right. exists wt, dc, dr. split; [assumption|]. split; [assumption|].
      unfold addDefinition. rewrite (safeParse_definition _ _ _ _ Hv).
      step_action. rewrite Ht. simpl.
      now rewrite contents_insert_eq, insert_insert_eq.
Qed.

Lemma addExample_cases formData st :
  (exists errs, errs <> [] /\
     (~ exists wt et er, ValidExampleForm formData wt et er) /\
     addExample formData st = (form_error errs, st)) \/
  (exists wt et er, ValidExampleForm formData wt et er /\
     addExample formData st =
     (msg "The example has been added successfully. Refresh the page and check it out."
          success,
      <[Js.slice 0 2 wt :=
          Shard.updateWhere (fun word => String.eqb (text word) wt)
            (push_example (newExample et er))
            (contents (Js.slice 0 2 wt) st)]> st)).
Proof.
  destruct (Zod.safeParse addExampleSchema
      [ ("word_text", FormData_get formData "word_text");
        ("example_text", FormData_get formData "example_text");
        ("example_reference", FormData_get formData "example_reference") ])
    as [errs|data] eqn:E.
  - left. exists errs. split; [eauto using safeParse_nonempty|]. split.
    + intros (wt & et & er & Hv). rewrite (safeParse_example _ _ _ _ Hv) in E.
      discriminate.
    + unfold addExample. now rewrite E.
  - right. apply safeParse_example_inv in E as (wt & et & er & Hv & _).
    exists wt, et, er. eauto using addExample_valid.
Qed.

Lemma addMention_valid formData wt ti hl st :
  ValidMentionForm formData wt ti hl ->
  addMention formData st =
  (msg "The data has been added successfully. Refresh the page and check it out."
       success,
   <[Js.slice 0 2 wt :=
       Shard.updateWhere (fun word => String.eqb (text word) wt)
         (push_mention (newMention ti hl))
         (contents (Js.slice 0 2 wt) st)]> st).
Proof.
  intros Hv. unfold addMention. rewrite (safeParse_mention _ _ _ _ Hv).
  now step_action.
Qed.

Lemma addMention_cases formData st :
  (exists errs, errs <> [] /\
     (~ exists wt ti hl, ValidMentionForm formData wt ti hl) /\
     addMention formData st = (form_error errs, st)) \/
  (exists wt ti hl, ValidMentionForm formData wt ti hl /\
     addMention formData st =
     (msg "The data has been added successfully. Refresh the page and check it out."
          success,
      <[Js.slice 0 2 wt :=
          Shard.updateWhere (fun word => String.eqb (text word) wt)
            (push_mention (newMention ti hl))
            (contents (Js.slice 0 2 wt) st)]> st)).
Proof.
  destruct (Zod.safeParse addMentionSchema
      [ ("word_text", FormData_get formData "word_text");
        ("mention_title", FormData_get formData "mention_title");
        ("mention_hyperlink", FormData_get formData "mention_hyperlink") ])
    as [errs|data] eqn:E.
  - left. exists errs. split; [eauto using safeParse_nonempty|]. split.
    + intros (wt & ti & hl & Hv). rewrite (safeParse_mention _ _ _ _ Hv) in E.
      discriminate.
    + unfold addMention. now rewrite E.
  - right. apply safeParse_mention_inv in E as (wt & ti & hl & Hv & _).
    exists wt, ti, hl. eauto using addMention_valid.
Qed.

Lemma Report_invalid_form session formData st :
  has_user session = true ->
  (~ exists wt re, ValidReportForm formData wt re) ->
  exists errs, errs <> [] /\ Report session formData st = (form_error errs, st).
Proof.
  intros Hs Hn. unfold Report. rewrite Hs. simpl.
  destruct (Zod.safeParse _ _) as [errs|data] eqn:E.
  - exists errs. eauto using safeParse_nonempty.
  - apply safeParse_report_inv in E as (wt & re & Hv & _). exfalso. eauto.
Qed.

Lemma Report_not_found session formData wt re st :
  has_user session = true ->
  ValidReportForm formData wt re ->
  Shard.findFirst (fun word => String.eqb (text word) wt)
    (contents (Js.slice 0 2 wt) st) = None ->
  Report session formData st =
  (msg "Cannot find the word undefined" error, opened (Js.slice 0 2 wt) st).
Proof.
  intros Hs Hv Hf. unfold Report. rewrite Hs. simpl.
  rewrite (safeParse_report _ _ _ Hv). step_action.
  now rewrite (indexOf_head_None _ _ Hf).
Qed.

Lemma Report_invalid_type session formData wt re st i w :
  has_user session = true ->
  ValidReportForm formData wt re ->
  first_match (fun word => String.eqb (text word) wt)
    (contents (Js.slice 0 2 wt) st) i w ->
  Js.includes ["word"; "definition"; "example"; "mention"] re = false ->
  Report session formData st = (msg "Invalid input!" error, st).
Proof.
  intros Hs Hv Hm Hre. unfold Report. rewrite Hs. simpl.
  rewrite (safeParse_report _ _ _ Hv). step_action.
  rewrite (indexOf_head_first _ _ _ _ Hm). simpl.
  pose proof (first_match_text _ _ _ _ Hm) as Hw. destruct Hm as (Hi & _).
  rewrite Hi. rewrite truthy_length by (rewrite Hw; destruct Hv; lia). simpl.
  unfold Js.includes in Hre. simpl in Hre. rewrite Hre. simpl.
  now rewrite (insert_contents_present _ _ _ (contents_nonempty_lookup _ _ _ _ Hi)).
Qed.

Lemma includes_four re :
  Js.includes ["word"; "definition"; "example"; "mention"] re = true ->
  re = "word" \/ sub_record_type re.
Proof.
  unfold Js.includes, sub_record_type. simpl. intros H.
  apply orb_true_iff in H as [H|H]; [apply String.eqb_eq in H; auto|].
  apply orb_true_iff in H as [H|H]; [apply String.eqb_eq in H; auto|].
  apply orb_true_iff in H as [H|H]; [apply String.eqb_eq in H; auto|].
  apply orb_true_iff in H as [H|H]; [apply String.eqb_eq in H; auto|].
  discriminate H.
Qed.

(** What a report does, case by case. *)
Lemma Report_cases session formData st :
  (has_user session = false /\
   Report session formData st =
     (msg "You have to login in order to report items." error, st)) \/
  (has_user session = true /\
   (~ exists wt re, ValidReportForm formData wt re) /\
   exists errs, errs <> [] /\ Report session formData st = (form_error errs, st)) \/
  (exists wt re, has_user session = true /\ ValidReportForm formData wt re /\
     Shard.findFirst (fun word => String.eqb (text word) wt)
       (contents (Js.slice 0 2 wt) st) = None /\
     Report session formData st =
       (msg "Cannot find the word undefined" error, opened (Js.slice 0 2 wt) st)) \/
  (exists wt re i w, has_user session = true /\ ValidReportForm formData wt re /\
     first_match (fun word => String.eqb (text word) wt)
       (contents (Js.slice 0 2 wt) st) i w /\
     ((Js.includes ["word"; "definition"; "example"; "mention"] re = false /\
       Report session formData st = (msg "Invalid input!" error, st)) \/
      (sub_record_type re /\
       Report session formData st = (msg "Something went wrong!" error, st)) \/
      (re = "word" /\
       Report session formData st =
       (msg "Done. Thanks for reporting." success,
        <[Js.slice 0 2 wt :=
            <[i := penalised w]> (contents (Js.slice 0 2 wt) st)]> st)))).
Proof.
  destruct (has_user session) eqn:Hs;
    [|left; split; [reflexivity | now apply Report_unauthenticated]].
  right.
  destruct (Zod.safeParse reportSchema
      [ ("word_text", FormData_get formData "word_text");
        ("report_element", FormData_get formData "report_element") ])
    as [errs|data] eqn:E.
  - left. split; [reflexivity|].
    assert (~ exists wt re, ValidReportForm formData wt re) as Hn.
    { intros (wt & re & Hv). rewrite (safeParse_report _ _ _ Hv) in E. discriminate. }
    split; [assumption | now apply Report_invalid_form].
  - right. apply safeParse_report_inv in E as (wt & re & Hv & _).
    destruct (Shard.findFirst (fun word => String.eqb (text word) wt)
                (contents (Js.slice 0 2 wt) st)) as [w|] eqn:Hf.
    + right. apply findFirst_Some in Hf as [i Hm]. exists wt, re, i, w.
      split; [reflexivity|]. split; [assumption|]. split; [assumption|].
      destruct (Js.includes ["word"; "definition"; "example"; "mention"] re) eqn:Hre.
      * right. apply includes_four in Hre as [-> | Hsub].
        -- right. split; [reflexivity|]. now apply (Report_word _ _ wt _ i w).
        -- left. split; [assumption|]. now apply (Report_sub_record _ _ wt re _ i w).
      * left. split; [reflexivity|]. now apply (Report_invalid_type _ _ wt re _ i w).
    + left. exists wt, re. split; [reflexivity|]. split; [assumption|].
      split; [assumption|]. now apply (Report_not_found _ _ wt re).
Qed.

(** ** Shapes of the updated shard *)

Lemma updateWhere_lookup p f (sh : Shard.t) i w' :
  Shard.updateWhere p f sh !! i = Some w' ->
  sh !! i = Some w' \/ exists w, sh !! i = Some w /\ p w = true /\ w' = f w.
Proof.
  destruct (Shard.findFirst p sh) as [w0|] eqn:E.
  - apply findFirst_Some in E as [j Hm].
    rewrite (updateWhere_first_match _ _ _ _ _ Hm). destruct Hm as (Hj & Hp & _).
    destruct (decide (j = i)) as [->|Hne].
    + rewrite list_lookup_insert_eq by (now apply lookup_lt_Some in Hj).
      intros [= <-]. right. eauto.
    + rewrite list_lookup_insert_ne by assumption. auto.
  - rewrite updateWhere_no_match by assumption. auto.
Qed.

Lemma updateWhere_length p f (sh : Shard.t) :
  length (Shard.updateWhere p f sh) = length sh.
Proof.
  induction sh as [|w sh IH]; simpl; [reflexivity|].
  destruct (p w); simpl; [reflexivity | now rewrite IH].
Qed.

Lemma updateWhere_kept p f (sh : Shard.t) i w :
  sh !! i = Some w ->
  Shard.updateWhere p f sh !! i = Some w \/
  Shard.updateWhere p f sh !! i = Some (f w).
Proof.
  intros Hi.
  destruct (Shard.updateWhere p f sh !! i) as [w'|] eqn:E.
  - apply updateWhere_lookup in E as [E | (w0 & E & _ & ->)];
      rewrite Hi in E; injection E as <-; auto.
  - apply lookup_ge_None in E. rewrite updateWhere_length in E.
    apply lookup_lt_Some in Hi. lia.
Qed.

Lemma updateWhere_texts p f (sh : Shard.t) :
  (forall w, text (f w) = text w) ->
  text <$> Shard.updateWhere p f sh = text <$> sh.
Proof.
  intros Hf. induction sh as [|w sh IH]; [reflexivity|].
  cbn [Shard.updateWhere]. destruct (p w); rewrite !fmap_cons;
    [now rewrite Hf | now rewrite IH].
Qed.

Lemma first_match_insert p (sh : Shard.t) i w w' :
  first_match p sh i w -> p w' = true -> first_match p (<[i := w']> sh) i w'.
Proof.
  intros (Hi & Hp & Hlt) Hp'. repeat split; [|assumption|].
  - apply list_lookup_insert_eq. now apply lookup_lt_Some in Hi.
  - intros j w0 Hj Hw. rewrite list_lookup_insert_ne in Hw by lia. eauto.
Qed.

(** ** Operations other than [addWord] keep the texts of every shard *)

Lemma same_texts_refl st : same_texts st st.
Proof. intros k. reflexivity. Qed.

Lemma same_texts_opened key st : same_texts st (opened key st).
Proof. intros k. unfold opened. now rewrite contents_insert_contents. Qed.

Lemma same_texts_insert (key : string) (sh : Shard.t) (st : Store) :
  text <$> sh = text <$> contents key st -> same_texts st (<[key := sh]> st).
Proof.
  intros H k. destruct (decide (key = k)) as [<-|Hne].
  - now rewrite contents_insert_eq.
  - now rewrite contents_insert_ne.
Qed.

Lemma same_texts_lookup st st' k i w' :
  same_texts st st' -> contents k st' !! i = Some w' ->
  exists w, contents k st !! i = Some w /\ text w = text w'.
Proof.
  intros H Hi. assert ((text <$> contents k st') !! i = Some (text w')) as E
    by (rewrite list_lookup_fmap, Hi; reflexivity).
  rewrite H in E. rewrite list_lookup_fmap in E.
  destruct (contents k st !! i) as [w|]; [|discriminate].
  exists w. split; [reflexivity|]. now injection E.
Qed.

Lemma addDefinition_same_texts formData st :
  same_texts st (snd (addDefinition formData st)).
Proof.
  destruct (addDefinition_cases formData st)
    as [(errs & _ & _ & ->) | [(wt & dc & dr & w & _ & _ & _ & ->)
       | (wt & dc & dr & _ & _ & ->)]]; simpl;
    try apply same_texts_refl.
  apply same_texts_insert, updateWhere_texts. reflexivity.
Qed.

Lemma addExample_same_texts formData st :
  same_texts st (snd (addExample formData st)).
Proof.
  destruct (addExample_cases formData st)
    as [(errs & _ & _ & ->) | (wt & et & er & _ & ->)]; simpl;
    try apply same_texts_refl.
  apply same_texts_insert, updateWhere_texts. reflexivity.
Qed.

Lemma addMention_same_texts formData st :
  same_texts st (snd (addMention formData st)).
Proof.
  destruct (addMention_cases formData st)
    as [(errs & _ & _ & ->) | (wt & ti & hl & _ & ->)]; simpl;
    try apply same_texts_refl.
  apply same_texts_insert, updateWhere_texts. reflexivity.
Qed.

Lemma Report_same_texts session formData st :
  same_texts st (snd (Report session formData st)).
Proof.
  destruct (Report_cases session formData st)
    as [(_ & ->) | [(_ & _ & errs & _ & ->) | [(wt & re & _ & _ & _ & ->)
       | (wt & re & i & w & _ & _ & Hm & [(_ & ->) | [(_ & ->) | (_ & ->)]])]]];
    simpl; try apply same_texts_refl; try apply same_texts_opened.
  apply same_texts_insert. rewrite list_fmap_insert. simpl.
  destruct Hm as (Hi & _). apply list_insert_id.
  now rewrite list_lookup_fmap, Hi.
Qed.

(** ** Invariants of the store *)

Lemma canonical_same_texts st st' :
  same_texts st st' -> canonical st -> canonical st'.
Proof.
  intros H Hc k i w' Hi.
  destruct (same_texts_lookup _ _ _ _ _ H Hi) as (w & Hw & <-). eauto.
Qed.

Lemma unique_same_texts st st' :
  same_texts st st' -> unique_texts st -> unique_texts st'.
Proof.
  intros H Hu k i w1 k' i' w2 H1 H2 Ht.
  destruct (same_texts_lookup _ _ _ _ _ H H1) as (v1 & Hv1 & E1).
  destruct (same_texts_lookup _ _ _ _ _ H H2) as (v2 & Hv2 & E2).
  apply (Hu _ _ _ _ _ _ Hv1 Hv2). congruence.
Qed.

Lemma canonical_texts_nonempty st : canonical st -> texts_nonempty st.
Proof. intros Hc k i w Hi. now destruct (Hc _ _ _ Hi) as (_ & Hne & _). Qed.


Lemma lookup_appended (sh : Shard.t) nw i w :
  Shard.append nw sh !! i = Some w ->
  sh !! i = Some w \/ (i = length sh /\ w = nw).
Proof.
  unfold Shard.append. intros [H|[Hl H]]%lookup_app_Some; [auto|].
  apply list_lookup_singleton_Some in H as [H <-]. right. split; [lia | reflexivity].
Qed.

Lemma newWord_canonical formData wt dc dr :
  ValidDefinitionForm formData wt dc dr ->
  Js.toLowerCase (text (newWord wt dc dr)) = text (newWord wt dc dr) /\
  text (newWord wt dc dr) <> "".
Proof.
  intros Hv. simpl. rewrite toLowerCase_idemp. split; [reflexivity|].
  apply toLowerCase_nonempty, long_nonempty. destruct Hv. lia.
Qed.

Lemma canonical_step op st : canonical st -> canonical (snd (run op st)).
Proof.
  intros Hc. destruct op as [fd|fd|fd|fd|session fd]; simpl;
    [| eapply canonical_same_texts; eauto using addDefinition_same_texts
     | eapply canonical_same_texts; eauto using addExample_same_texts
     | eapply canonical_same_texts; eauto using addMention_same_texts
     | eapply canonical_same_texts; eauto using Report_same_texts].
  destruct (addWord_cases fd st)
    as [(errs & _ & _ & ->) | [(wt & dc & dr & w & _ & _ & ->)
       | (wt & dc & dr & Hv & Hl & ->)]]; simpl; try assumption.
  intros k i w Hi.
  destruct (decide (Js.slice 0 2 (Js.toLowerCase wt) = k)) as [<-|Hne].
  - rewrite contents_insert_eq in Hi.
    apply lookup_appended in Hi as [Hi | [_ ->]]; [eauto|].
    destruct (newWord_canonical _ _ _ _ Hv) as [H1 H2]. auto.
  - rewrite contents_insert_ne in Hi by assumption. eauto.
Qed.

Lemma unique_step op st :
  canonical st -> unique_texts st -> unique_texts (snd (run op st)).
Proof.
  intros Hc Hu. destruct op as [fd|fd|fd|fd|session fd]; simpl;
    [| eapply unique_same_texts; eauto using addDefinition_same_texts
     | eapply unique_same_texts; eauto using addExample_same_texts
     | eapply unique_same_texts; eauto using addMention_same_texts
     | eapply unique_same_texts; eauto using Report_same_texts].
  destruct (addWord_cases fd st)
    as [(errs & _ & _ & ->) | [(wt & dc & dr & w & _ & _ & ->)
       | (wt & dc & dr & Hv & Hl & ->)]]; simpl; try assumption.
  set (key := Js.slice 0 2 (Js.toLowerCase wt)).
  assert (Hfresh : forall k i w, contents k st !! i = Some w ->
                                 text w <> Js.toLowerCase wt).
  { intros k i w Hi Ht. destruct (Hc _ _ _ Hi) as (_ & _ & Hk).
    rewrite Ht in Hk. fold key in Hk. subst k.
    unfold lookup in Hl. fold key in Hl.
    pose proof (proj1 (findFirst_None _ _) Hl i w Hi) as Hf. simpl in Hf.
    apply String.eqb_neq in Hf. contradiction. }
  assert (Hcases : forall k i w,
    contents k (<[key := Shard.append (newWord wt dc dr) (contents key st)]> st) !! i
      = Some w ->
    contents k st !! i = Some w \/
    (k = key /\ i = length (contents key st) /\ w = newWord wt dc dr)).
  { intros k i w Hi. destruct (decide (key = k)) as [<-|Hne].
    - rewrite contents_insert_eq in Hi.
      apply lookup_appended in Hi as [Hi | [-> ->]]; auto.
    - rewrite contents_insert_ne in Hi by assumption. auto. }
  intros k i w1 k' i' w2 H1 H2 Ht.
  apply Hcases in H1 as [H1 | (-> & -> & ->)];
    apply Hcases in H2 as [H2 | (-> & -> & ->)].
  - eauto.
  - exfalso. apply (Hfresh _ _ _ H1). exact Ht.
  - exfalso. apply (Hfresh _ _ _ H2). symmetry. exact Ht.
  - auto.
Qed.

Lemma distinct_insert (key : string) (sh : Shard.t) (st : Store) :
  distinct_references st ->
  (forall i w, sh !! i = Some w -> NoDup (def_reference <$> definitions w)) ->
  distinct_references (<[key := sh]> st).
Proof.
  intros Hd Hsh k i w Hi. destruct (decide (key = k)) as [<-|Hne].
  - rewrite contents_insert_eq in Hi. eauto.
  - rewrite contents_insert_ne in Hi by assumption. eauto.
Qed.

Lemma distinct_updateWhere p f (sh : Shard.t) :
  (forall i w, sh !! i = Some w -> NoDup (def_reference <$> definitions w)) ->
  (forall i w, sh !! i = Some w -> NoDup (def_reference <$> definitions (f w))) ->
  forall i w, Shard.updateWhere p f sh !! i = Some w ->
              NoDup (def_reference <$> definitions w).
Proof.
  intros H Hf i w [Hi | (w0 & Hi & _ & ->)]%updateWhere_lookup; eauto.
Qed.

Lemma distinct_step op st :
  canonical st -> distinct_references st ->
  distinct_references (snd (run op st)).
Proof.
  intros Hc Hd. destruct op as [fd|fd|fd|fd|session fd]; simpl.
  - destruct (addWord_cases fd st)
      as [(errs & _ & _ & ->) | [(wt & dc & dr & w & _ & _ & ->)
         | (wt & dc & dr & Hv & Hl & ->)]]; simpl; try assumption.
    apply distinct_insert; [assumption|].
    intros i w [Hi | [_ ->]]%lookup_appended; [eauto|].
    simpl. apply NoDup_singleton.
  - destruct (addDefinition_cases fd st)
      as [(errs & _ & _ & ->) | [(wt & dc & dr & w & _ & _ & _ & ->)
         | (wt & dc & dr & Hv & Hg & ->)]]; simpl; try assumption.
    apply distinct_insert; [assumption|].
    apply distinct_updateWhere; [eauto|].
    intros i w Hi. simpl. rewrite fmap_app. simpl.
    apply NoDup_app. split; [eauto|]. split; [|apply NoDup_singleton].
    intros r Hr Hr'. apply list_elem_of_singleton in Hr'. subst r.
    apply list_elem_of_fmap in Hr as (d & Hd1 & Hd2).
    destruct (Shard.findFirst (has_reference dr) (contents (Js.slice 0 2 wt) st))
      as [w0|] eqn:Hf.
    + simpl in Hg. apply findFirst_Some in Hf as (j & Hj & _).
      rewrite (truthy_nonempty _ (canonical_texts_nonempty _ Hc _ _ _ Hj)) in Hg.
      discriminate.
    + pose proof (proj1 (findFirst_None _ _) Hf i w Hi) as Hno.
      apply (proj1 (has_reference_false _ _) Hno d Hd2). auto.
  - destruct (addExample_cases fd st)
      as [(errs & _ & _ & ->) | (wt & et & er & _ & ->)]; simpl; try assumption.
    apply distinct_insert; [assumption|].
    apply distinct_updateWhere; [eauto|]. intros i w Hi. simpl. eauto.
  - destruct (addMention_cases fd st)
      as [(errs & _ & _ & ->) | (wt & ti & hl & _ & ->)]; simpl; try assumption.
    apply distinct_insert; [assumption|].
    apply distinct_updateWhere; [eauto|]. intros i w Hi. simpl. eauto.
  - destruct (Report_cases session fd st)
      as [(_ & ->) | [(_ & _ & errs & _ & ->) | [(wt & re & _ & _ & _ & ->)
         | (wt & re & i & w & _ & _ & Hm & [(_ & ->) | [(_ & ->) | (_ & ->)]])]]];
      simpl; try assumption.
    + apply distinct_insert; [assumption | eauto].
    + apply distinct_insert; [assumption|]. destruct Hm as (Hi & _).
      intros j w'. destruct (decide (i = j)) as [->|Hne].
      * rewrite list_lookup_insert_eq by (now apply lookup_lt_Some in Hi).
        intros [= <-]. simpl. eauto.
      * rewrite list_lookup_insert_ne by assumption. eauto.
Qed.

Lemma empty_contents k i w : contents k (∅ : Store) !! i = Some w -> False.
Proof.
  unfold contents. rewrite lookup_empty. destruct i; discriminate.
Qed.

Lemma reachable_invariants ops st :
  canonical st /\ unique_texts st /\ distinct_references st ->
  canonical (run_all ops st) /\ unique_texts (run_all ops st) /\
  distinct_references (run_all ops st).
Proof.
  revert st. induction ops as [|op ops IH]; intros st (Hc & Hu & Hd); [auto|].
  apply IH. auto using canonical_step, unique_step, distinct_step.
Qed.

Lemma empty_invariants :
  canonical ∅ /\ unique_texts ∅ /\ distinct_references ∅.
Proof.
  split; [|split].
  - intros k i w H. destruct (empty_contents _ _ _ H).
  - intros k i w k' i' w' H. destruct (empty_contents _ _ _ H).
  - intros k i w H. destruct (empty_contents _ _ _ H).
Qed.

(** * Further results *)

(** ** Validation *)

(** X1.  A form that does not pass [addDefinitionSchema] (a field is
    missing, is a file, or has a length outside its bounds) is answered by
    [addWord] and by [addDefinition] with the same form error, which lists
    at least one field, and the store is not touched. *)
Theorem invalid_definition_form_rejected formData st :
  (~ exists wt dc dr, ValidDefinitionForm formData wt dc dr) ->
  exists errs, errs <> [] /\
    addWord formData st = (form_error errs, st) /\
    addDefinition formData st = (form_error errs, st).
Proof.
  intros Hn.
  destruct (Zod.safeParse addDefinitionSchema
      [ ("word_text", FormData_get formData "word_text");
        ("def_content", FormData_get formData "def_content");
        ("def_reference", FormData_get formData "def_reference") ])
    as [errs|data] eqn:E.
  - exists errs. split; [eauto using safeParse_nonempty|].
    unfold addWord, addDefinition. now rewrite E.
  - apply safeParse_definition_inv in E as (wt & dc & dr & Hv & _).
    exfalso. eauto.
Qed.

Lemma invalid_definition_form_rejected_witness :
  exists errs, errs <> [] /\
    addWord [("word_text", FString "a")] Sample.store = (form_error errs, Sample.store) /\
    addDefinition [("word_text", FString "a")] Sample.store
      = (form_error errs, Sample.store).
Proof.
  apply (invalid_definition_form_rejected [("word_text", FString "a")] Sample.store).
  intros (wt & dc & dr & [_ H _ _ _ _]). discriminate H.
Defined.

(** X2.  A [word_text] of fewer than 2 or more than 50 characters makes
    [addWord] answer with a form error whose entry for [word_text] is the
    bound that failed, the form shows that entry under the word field with
    a destructive alert, and the store is not touched. *)
Theorem word_text_out_of_bounds formData wt st :
  FormData_get formData "word_text" = Some (FString wt) ->
  ~ (2 <= String.length wt <= 50)%nat ->
  exists errs,
    addWord formData st = (form_error errs, st) /\
    FieldErrors_get errs "word_text" =
      Some [if (String.length wt <? 2)%nat then too_small 2 else too_big 50] /\
    word_text_message (AddWordForm (Some (fst (addWord formData st)))) =
      Some [if (String.length wt <? 2)%nat then too_small 2 else too_big 50] /\
    (variant <$> alert (AddWordForm (Some (fst (addWord formData st)))))
      = Some (Some "destructive").
Proof.
  intros Hw Hlen.
  assert (exists errs,
    Zod.safeParse addDefinitionSchema
      [ ("word_text", FormData_get formData "word_text");
        ("def_content", FormData_get formData "def_content");
        ("def_reference", FormData_get formData "def_reference") ] = inl errs /\
    FieldErrors_get errs "word_text" =
      Some [if (String.length wt <? 2)%nat then too_small 2 else too_big 50])
    as (errs & E & Hget).
  { unfold Zod.safeParse. rewrite Hw.
    destruct (String.length wt <? 2)%nat eqn:Hlt;
      [apply Nat.ltb_lt in Hlt | apply Nat.ltb_ge in Hlt];
      destruct (FormData_get formData "def_content") as [[dc|?]|];
      destruct (FormData_get formData "def_reference") as [[dr|?]|];
      with_strategy opaque [Nat.leb] simpl; split_checks; try lia;
      simpl; eexists; split; reflexivity. }
  exists errs. unfold addWord. rewrite E. simpl. rewrite Hget. auto.
Qed.

Lemma word_text_out_of_bounds_witness :
  exists errs,
    addWord [("word_text", FString "a")] Sample.store = (form_error errs, Sample.store) /\
    FieldErrors_get errs "word_text" = Some [too_small 2] /\
    word_text_message
      (AddWordForm (Some (fst (addWord [("word_text", FString "a")] Sample.store))))
      = Some [too_small 2] /\
    (variant <$> alert
       (AddWordForm (Some (fst (addWord [("word_text", FString "a")] Sample.store)))))
      = Some (Some "destructive").
Proof.
  apply (word_text_out_of_bounds [("word_text", FString "a")] "a" Sample.store).
  - reflexivity.
  - simpl. lia.
Defined.

(** X3.  A mention whose hyperlink does not start with [https://] is
    rejected by [addMention] with the message [Must provide secure URL]
    for [mention_hyperlink], and the store is not touched. *)
Theorem insecure_hyperlink_rejected formData hl st :
  FormData_get formData "mention_hyperlink" = Some (FString hl) ->
  Js.startsWith "https://" hl = false ->
  exists errs,
    addMention formData st = (form_error errs, st) /\
    FieldErrors_get errs "mention_hyperlink" =
      Some [invalid_string "Must provide secure URL"].
Proof.
  intros Hh Hs.
  assert (exists errs,
    Zod.safeParse addMentionSchema
      [ ("word_text", FormData_get formData "word_text");
        ("mention_title", FormData_get formData "mention_title");
        ("mention_hyperlink", FormData_get formData "mention_hyperlink") ] = inl errs /\
    FieldErrors_get errs "mention_hyperlink" =
      Some [invalid_string "Must provide secure URL"])
    as (errs & E & Hget).
  { unfold Zod.safeParse. rewrite Hh.
    destruct (FormData_get formData "word_text") as [[wt|?]|];
      destruct (FormData_get formData "mention_title") as [[ti|?]|];
      with_strategy opaque [Nat.leb Js.startsWith] simpl; rewrite Hs;
      split_checks; simpl; eexists; split; reflexivity. }
  exists errs. unfold addMention. rewrite E. auto.
Qed.

Lemma insecure_hyperlink_rejected_witness :
  exists errs,
    addMention Demo.insecure_mention Sample.store = (form_error errs, Sample.store) /\
    FieldErrors_get errs "mention_hyperlink" =
      Some [invalid_string "Must provide secure URL"].
Proof.
  apply (insecure_hyperlink_rejected Demo.insecure_mention
           "http://example.org/testing" Sample.store); reflexivity.
Defined.

(** X4.  An authenticated report whose form does not pass [reportSchema]
    ([word_text] missing or out of bounds, [report_element] missing) is
    answered with a form error and the store is not touched. *)
Theorem invalid_report_form_rejected session formData st :
  has_user session = true ->
  (~ exists wt re, ValidReportForm formData wt re) ->
  exists errs, errs <> [] /\
    Report session formData st = (form_error errs, st) /\
    outcome (fst (Report session formData st)) = ValidationFailed.
Proof.
  intros Hs Hn.
  destruct (Report_invalid_form _ _ st Hs Hn) as (errs & Hne & ->).
  exists errs. auto.
Qed.

Lemma invalid_report_form_rejected_witness :
  exists errs, errs <> [] /\
    Report Sample.alice [("word_text", FString "test")] Sample.store
      = (form_error errs, Sample.store) /\
    outcome (fst (Report Sample.alice [("word_text", FString "test")] Sample.store))
      = ValidationFailed.
Proof.
  apply (invalid_report_form_rejected Sample.alice [("word_text", FString "test")]
           Sample.store).
  - reflexivity.
  - intros (wt & re & [_ H _]). discriminate H.
Defined.

(** ** Appending records *)

(** X5.  [addExample] with a valid form for a stored text answers with a
    success and appends the new example, with scores 1 and 0, to the
    examples of the first Word of that text; there is no guard against
    duplicates, so a second call with the same form appends the same
    example once more. *)
Theorem addExample_appends_every_time formData wt et er st i w :
  ValidExampleForm formData wt et er ->
  first_match (fun word => String.eqb (text word) wt)
    (contents (Js.slice 0 2 wt) st) i w ->
  addExample formData st =
    (msg "The example has been added successfully. Refresh the page and check it out."
         success,
     <[Js.slice 0 2 wt :=
         <[i := push_example (newExample et er) w]>
           (contents (Js.slice 0 2 wt) st)]> st) /\
  contents (Js.slice 0 2 wt) (snd (addExample formData (snd (addExample formData st))))
    !! i
  = Some {| text := text w; definitions := definitions w;
            examples := (examples w ++ [newExample et er; newExample et er])%list;
            mentions := mentions w; V := V w; NV := NV w |}.
Proof.
  intros Hv Hm. rewrite (addExample_valid _ _ _ _ _ Hv).
  rewrite (updateWhere_first_match _ _ _ _ _ Hm). split; [reflexivity|].
  simpl. rewrite (addExample_valid _ _ _ _ _ Hv). simpl.
  rewrite !contents_insert_eq.
  assert (first_match (fun word => String.eqb (text word) wt)
            (<[i := push_example (newExample et er) w]>
               (contents (Js.slice 0 2 wt) st)) i
            (push_example (newExample et er) w)) as Hm'.
  { apply (first_match_insert _ _ _ w); [assumption|]. simpl.
    now destruct Hm as (_ & ? & _). }
  rewrite (updateWhere_first_match _ _ _ _ _ Hm').
  rewrite list_insert_insert_eq.
  rewrite list_lookup_insert_eq by (destruct Hm as (Hi & _); now apply lookup_lt_Some in Hi).
  unfold push_example. simpl. now rewrite <- app_assoc.
Qed.

Lemma addExample_appends_every_time_witness :
  addExample Demo.example_for_test Sample.store =
    (msg "The example has been added successfully. Refresh the page and check it out."
         success,
     <[Js.slice 0 2 "test" :=
         <[0%nat := push_example (newExample "The test took an hour." "a primer")
                      Sample.test_word]>
           (contents (Js.slice 0 2 "test") Sample.store)]> Sample.store) /\
  contents (Js.slice 0 2 "test")
    (snd (addExample Demo.example_for_test
            (snd (addExample Demo.example_for_test Sample.store)))) !! 0%nat
  = Some {| text := text Sample.test_word;
            definitions := definitions Sample.test_word;
            examples :=
              (examples Sample.test_word ++
                 [newExample "The test took an hour." "a primer";
                  newExample "The test took an hour." "a primer"])%list;
            mentions := mentions Sample.test_word;
            V := V Sample.test_word; NV := NV Sample.test_word |}.
Proof.
  apply (addExample_appends_every_time Demo.example_for_test "test"
           "The test took an hour." "a primer" Sample.store 0%nat Sample.test_word).
  - constructor; simpl; first [reflexivity | lia].
  - apply sample_first_match.
Defined.

(** X6.  [addMention] with a valid form (a title of 10 to 45 characters and
    an [https://] hyperlink) for a stored text answers with a success and
    appends the new mention, with scores 1 and 0, to the mentions of the
    first Word of that text, leaving its other fields as they are. *)
Theorem addMention_appends formData wt ti hl st i w :
  ValidMentionForm formData wt ti hl ->
  first_match (fun word => String.eqb (text word) wt)
    (contents (Js.slice 0 2 wt) st) i w ->
  addMention formData st =
    (msg "The data has been added successfully. Refresh the page and check it out."
         success,
     <[Js.slice 0 2 wt :=
         <[i := {| text := text w; definitions := definitions w;
                   examples := examples w;
                   mentions := (mentions w ++ [ {| men_title := ti; men_hyperlink := hl;
                                                   men_V := 1; men_NV := 0 |} ])%list;
                   V := V w; NV := NV w |}]>
           (contents (Js.slice 0 2 wt) st)]> st).
Proof.
  intros Hv Hm. rewrite (addMention_valid _ _ _ _ _ Hv).
  now rewrite (updateWhere_first_match _ _ _ _ _ Hm).
Qed.

Lemma addMention_appends_witness :
  addMention Demo.mention_for_test Sample.store =
    (msg "The data has been added successfully. Refresh the page and check it out."
         success,
     <[Js.slice 0 2 "test" :=
         <[0%nat := {| text := text Sample.test_word;
                       definitions := definitions Sample.test_word;
                       examples := examples Sample.test_word;
                       mentions :=
                         (mentions Sample.test_word ++
                            [ {| men_title := "Testing in practice";
                                 men_hyperlink := "https://example.org/testing";
                                 men_V := 1; men_NV := 0 |} ])%list;
                       V := V Sample.test_word; NV := NV Sample.test_word |}]>
           (contents (Js.slice 0 2 "test") Sample.store)]> Sample.store).
Proof.
  apply (addMention_appends Demo.mention_for_test "test" "Testing in practice"
           "https://example.org/testing" Sample.store 0%nat Sample.test_word).
  - constructor; simpl; first [reflexivity | lia].
  - apply sample_first_match.
Defined.

(** X7.  [addWord] never alters a Word that is stored: in every shard the
    Words after the call are those before it, followed by at most one new
    Word. *)
Theorem addWord_only_appends formData st k :
  exists added,
    contents k (snd (addWord formData st)) = (contents k st ++ added)%list /\
    (length added <= 1)%nat.
Proof.
  destruct (addWord_cases formData st)
    as [(errs & _ & _ & ->) | [(wt & dc & dr & w & _ & _ & ->)
       | (wt & dc & dr & Hv & Hl & ->)]]; simpl.
  - exists []. rewrite app_nil_r. auto.
  - exists []. rewrite app_nil_r. auto.
  - destruct (decide (Js.slice 0 2 (Js.toLowerCase wt) = k)) as [<-|Hne].
    + exists [newWord wt dc dr]. rewrite contents_insert_eq. auto.
    + exists []. rewrite contents_insert_ne, app_nil_r by assumption. auto.
Qed.

Lemma extends_refl w : extends w w.
Proof. repeat split; exists []; now rewrite app_nil_r. Qed.

Lemma extends_updateWhere p f (key : string) (st : Store) k :
  (forall w, extends w (f w)) ->
  length (contents k (<[key := Shard.updateWhere p f (contents key st)]> st))
    = length (contents k st) /\
  forall i w, contents k st !! i = Some w ->
    exists w', contents k (<[key := Shard.updateWhere p f (contents key st)]> st) !! i
                 = Some w' /\ extends w w'.
Proof.
  intros Hf. destruct (decide (key = k)) as [<-|Hne].
  - rewrite contents_insert_eq. split; [apply updateWhere_length|].
    intros i w Hi. destruct (updateWhere_kept p f _ _ _ Hi) as [H|H];
      rewrite H; eauto using extends_refl.
  - rewrite contents_insert_ne by assumption. eauto using extends_refl.
Qed.

(** X8.  [addDefinition], [addExample] and [addMention] create no Word and
    change no text and no score: every shard keeps its length, and every
    Word keeps its text, [V] and [NV], its three collections being extended
    at most. *)
Theorem add_records_keep_words formData st k :
  (length (contents k (snd (addDefinition formData st))) = length (contents k st) /\
   forall i w, contents k st !! i = Some w ->
     exists w', contents k (snd (addDefinition formData st)) !! i = Some w' /\
                extends w w') /\
  (length (contents k (snd (addExample formData st))) = length (contents k st) /\
   forall i w, contents k st !! i = Some w ->
     exists w', contents k (snd (addExample formData st)) !! i = Some w' /\
                extends w w') /\
  (length (contents k (snd (addMention formData st))) = length (contents k st) /\
   forall i w, contents k st !! i = Some w ->
     exists w', contents k (snd (addMention formData st)) !! i = Some w' /\
                extends w w').
Proof.
  split; [|split].
  - destruct (addDefinition_cases formData st)
      as [(errs & _ & _ & ->) | [(wt & dc & dr & w & _ & _ & _ & ->)
         | (wt & dc & dr & _ & _ & ->)]]; simpl; eauto using extends_refl.
    apply extends_updateWhere. intros w.
    repeat split; first [now exists [newDefinition dc dr] | exists []; now rewrite app_nil_r].
  - destruct (addExample_cases formData st)
      as [(errs & _ & _ & ->) | (wt & et & er & _ & ->)]; simpl;
      eauto using extends_refl.
    apply extends_updateWhere. intros w.
    repeat split; first [now exists [newExample et er] | exists []; now rewrite app_nil_r].
  - destruct (addMention_cases formData st)
      as [(errs & _ & _ & ->) | (wt & ti & hl & _ & ->)]; simpl;
      eauto using extends_refl.
    apply extends_updateWhere. intros w.
    repeat split; first [now exists [newMention ti hl] | exists []; now rewrite app_nil_r].
Qed.

(** X9.  [addWord] compares texts in lower case: once a valid form has
    stored a text, a valid form with the same text in any other casing is
    answered with the duplicate warning for the lowercased text, and the
    store stays as the first call left it. *)
Theorem addWord_duplicate_in_any_casing fd1 fd2 wt1 dc1 dr1 wt2 dc2 dr2 st :
  ValidDefinitionForm fd1 wt1 dc1 dr1 ->
  ValidDefinitionForm fd2 wt2 dc2 dr2 ->
  Js.toLowerCase wt1 = Js.toLowerCase wt2 ->
  lookup wt1 st = None ->
  addWord fd2 (snd (addWord fd1 st)) =
    (duplicate_word (Js.toLowerCase wt1), snd (addWord fd1 st)).
Proof.
  intros Hv1 Hv2 He Hl. rewrite (addWord_fresh _ _ _ _ _ Hv1 Hl). simpl.
  rewrite He. apply (addWord_existing _ _ _ _ _ (newWord wt1 dc1 dr1) Hv2).
  pose proof (lookup_after_add wt1 dc1 dr1 st Hl) as H.
  unfold lookup in *. rewrite <- He. exact H.
Qed.

Lemma addWord_duplicate_in_any_casing_witness :
  addWord Demo.add_RUN (snd (addWord Demo.add_Run ∅)) =
    (duplicate_word (Js.toLowerCase "Run"), snd (addWord Demo.add_Run ∅)).
Proof.
  apply (addWord_duplicate_in_any_casing Demo.add_Run Demo.add_RUN
           "Run" "to move quickly on foot" "Oxford Dictionary"
           "RUN" "to be in operation" "Cambridge Dictionary" ∅).
  - constructor; simpl; first [reflexivity | lia].
  - constructor; simpl; first [reflexivity | lia].
  - reflexivity.
  - reflexivity.
Defined.

(** ** Reports *)

(** X10.  An authenticated report of the word itself, for a stored text,
    answers with a success and adds 2 to the [NV] of the first Word of that
    text; every other Word of the shard and every other shard is as
    before. *)
Theorem Report_word_penalises session formData wt st i w :
  has_user session = true ->
  ValidReportForm formData wt "word" ->
  first_match (fun word => String.eqb (text word) wt)
    (contents (Js.slice 0 2 wt) st) i w ->
  fst (Report session formData st) = msg "Done. Thanks for reporting." success /\
  contents (Js.slice 0 2 wt) (snd (Report session formData st)) !! i
    = Some {| text := text w; definitions := definitions w; examples := examples w;
              mentions := mentions w; V := V w; NV := NV w + 2 |} /\
  (forall j, j <> i ->
     contents (Js.slice 0 2 wt) (snd (Report session formData st)) !! j
     = contents (Js.slice 0 2 wt) st !! j) /\
  (forall k, k <> Js.slice 0 2 wt ->
     contents k (snd (Report session formData st)) = contents k st).
Proof.
  intros Hs Hv Hm. rewrite (Report_word _ _ _ _ _ _ Hs Hv Hm). simpl.
  destruct Hm as (Hi & _). split; [reflexivity|]. split; [|split].
  - rewrite contents_insert_eq.
    apply list_lookup_insert_eq. now apply lookup_lt_Some in Hi.
  - intros j Hj. rewrite contents_insert_eq. now apply list_lookup_insert_ne.
  - intros k Hk. now apply contents_insert_ne.
Qed.

Lemma Report_word_penalises_witness :
  fst (Report Sample.alice Demo.report_word Sample.store)
    = msg "Done. Thanks for reporting." success /\
  contents (Js.slice 0 2 "test") (snd (Report Sample.alice Demo.report_word Sample.store))
    !! 0%nat
    = Some {| text := text Sample.test_word;
              definitions := definitions Sample.test_word;
              examples := examples Sample.test_word;
              mentions := mentions Sample.test_word;
              V := V Sample.test_word; NV := NV Sample.test_word + 2 |} /\
  (forall j, j <> 0%nat ->
     contents (Js.slice 0 2 "test")
       (snd (Report Sample.alice Demo.report_word Sample.store)) !! j
     = contents (Js.slice 0 2 "test") Sample.store !! j) /\
  (forall k, k <> Js.slice 0 2 "test" ->
     contents k (snd (Report Sample.alice Demo.report_word Sample.store))
     = contents k Sample.store).
Proof.
  apply (Report_word_penalises Sample.alice Demo.report_word "test" Sample.store
           0%nat Sample.test_word).
  - reflexivity.
  - constructor; simpl; first [reflexivity | lia].
  - apply sample_first_match.
Defined.

Lemma penalised_by_zero w : penalised_by 0 w = w.
Proof. destruct w. unfold penalised_by. simpl. f_equal. lia. Qed.

Lemma penalised_penalised_by n w : penalised (penalised_by n w) = penalised_by (S n) w.
Proof. unfold penalised, penalised_by. simpl. f_equal. lia. Qed.

Lemma Report_word_iter session formData wt st i w n :
  has_user session = true ->
  ValidReportForm formData wt "word" ->
  first_match (fun word => String.eqb (text word) wt)
    (contents (Js.slice 0 2 wt) st) i w ->
  Nat.iter n (fun s => snd (Report session formData s)) st =
  <[Js.slice 0 2 wt := <[i := penalised_by n w]> (contents (Js.slice 0 2 wt) st)]> st.
Proof.
  intros Hs Hv Hm. pose proof Hm as (Hi & Hp & _).
  induction n as [|n IH]; simpl.
  - rewrite penalised_by_zero, list_insert_id by assumption.
    symmetry. eapply insert_contents_present, contents_nonempty_lookup, Hi.
  - rewrite IH.
    assert (first_match (fun word => String.eqb (text word) wt)
              (contents (Js.slice 0 2 wt)
                 (<[Js.slice 0 2 wt :=
                      <[i := penalised_by n w]> (contents (Js.slice 0 2 wt) st)]> st))
              i (penalised_by n w)) as Hm'.
    { rewrite contents_insert_eq. now apply (first_match_insert _ _ _ w). }
    rewrite (Report_word _ _ _ _ _ _ Hs Hv Hm'). simpl.
    rewrite contents_insert_eq, insert_insert_eq, list_insert_insert_eq.
    now rewrite penalised_penalised_by.
Qed.

(** X11.  Reports of a word add up: after [n] authenticated reports of a
    stored word, its [NV] is [2 * n] more than before, its other fields are
    unchanged, and so is every other Word of the shard. *)
Theorem Report_word_n_times session formData wt st i w n :
  has_user session = true ->
  ValidReportForm formData wt "word" ->
  first_match (fun word => String.eqb (text word) wt)
    (contents (Js.slice 0 2 wt) st) i w ->
  contents (Js.slice 0 2 wt)
    (Nat.iter n (fun s => snd (Report session formData s)) st) !! i
    = Some {| text := text w; definitions := definitions w; examples := examples w;
              mentions := mentions w; V := V w; NV := NV w + 2 * Z.of_nat n |} /\
  forall j, j <> i ->
    contents (Js.slice 0 2 wt)
      (Nat.iter n (fun s => snd (Report session formData s)) st) !! j
    = contents (Js.slice 0 2 wt) st !! j.
Proof.
  intros Hs Hv Hm. rewrite (Report_word_iter _ _ _ _ _ _ n Hs Hv Hm).
  rewrite contents_insert_eq. destruct Hm as (Hi & _). split.
  - apply list_lookup_insert_eq. now apply lookup_lt_Some in Hi.
  - intros j Hj. now apply list_lookup_insert_ne.
Qed.

Lemma Report_word_n_times_witness :
  contents (Js.slice 0 2 "test")
    (Nat.iter 3 (fun s => snd (Report Sample.alice Demo.report_word s)) Sample.store)
    !! 0%nat
    = Some {| text := text Sample.test_word;
              definitions := definitions Sample.test_word;
              examples := examples Sample.test_word;
              mentions := mentions Sample.test_word;
              V := V Sample.test_word;
              NV := NV Sample.test_word + 2 * Z.of_nat 3 |} /\
  forall j, j <> 0%nat ->
    contents (Js.slice 0 2 "test")
      (Nat.iter 3 (fun s => snd (Report Sample.alice Demo.report_word s)) Sample.store)
      !! j
    = contents (Js.slice 0 2 "test") Sample.store !! j.
Proof.
  apply (Report_word_n_times Sample.alice Demo.report_word "test" Sample.store
           0%nat Sample.test_word 3).
  - reflexivity.
  - constructor; simpl; first [reflexivity | lia].
  - apply sample_first_match.
Defined.

(** X12.  An authenticated report with a valid form for a text that the
    shard does not hold is answered with [Cannot find the word undefined],
    whatever the element type, valid or not, and the Words of every shard
    are unchanged: the word is looked up before the element type is
    checked. *)
Theorem Report_absent_word session formData wt re st :
  has_user session = true ->
  ValidReportForm formData wt re ->
  (forall i w, contents (Js.slice 0 2 wt) st !! i = Some w -> text w <> wt) ->
  fst (Report session formData st) = msg "Cannot find the word undefined" error /\
  outcome (fst (Report session formData st)) = WordNotFound /\
  forall k, contents k (snd (Report session formData st)) = contents k st.
Proof.
  intros Hs Hv Hno.
  rewrite (Report_not_found _ _ _ _ _ Hs Hv (no_text_no_match _ _ Hno)).
  repeat split. intros k. apply contents_opened.
Qed.

Lemma Report_absent_word_witness :
  fst (Report Sample.alice (Demo.report_of "tester" "anything") Sample.store)
    = msg "Cannot find the word undefined" error /\
  outcome (fst (Report Sample.alice (Demo.report_of "tester" "anything") Sample.store))
    = WordNotFound /\
  forall k,
    contents k (snd (Report Sample.alice (Demo.report_of "tester" "anything") Sample.store))
    = contents k Sample.store.
Proof.
  apply (Report_absent_word Sample.alice (Demo.report_of "tester" "anything")
           "tester" "anything" Sample.store).
  - reflexivity.
  - constructor; simpl; first [reflexivity | lia].
  - intros i w Hi. rewrite sample_store_eq in Hi.
    destruct i as [|i]; [|destruct i; discriminate Hi].
    injection Hi as <-. discriminate.
Defined.

(** X13.  An authenticated report of a stored word with an element type
    other than [word], [definition], [example] and [mention] (the empty
    string included, which the schema admits) is answered with
    [Invalid input!] and the store is unchanged. *)
Theorem Report_invalid_element_type session formData wt re st i w :
  has_user session = true ->
  ValidReportForm formData wt re ->
  first_match (fun word => String.eqb (text word) wt)
    (contents (Js.slice 0 2 wt) st) i w ->
  re <> "word" -> ~ sub_record_type re ->
  Report session formData st = (msg "Invalid input!" error, st) /\
  outcome (fst (Report session formData st)) = InvalidElementType.
Proof.
  intros Hs Hv Hm Hw Hsub.
  rewrite (Report_invalid_type _ _ _ _ _ _ _ Hs Hv Hm); [auto|].
  destruct (Js.includes _ re) eqn:E; [|reflexivity].
  apply includes_four in E as [E|E]; contradiction.
Qed.

Lemma Report_invalid_element_type_witness :
  Report Sample.alice (Demo.report_of "test" "") Sample.store
    = (msg "Invalid input!" error, Sample.store) /\
  outcome (fst (Report Sample.alice (Demo.report_of "test" "") Sample.store))
    = InvalidElementType.
Proof.
  apply (Report_invalid_element_type Sample.alice (Demo.report_of "test" "")
           "test" "" Sample.store 0%nat Sample.test_word).
  - reflexivity.
  - constructor; simpl; first [reflexivity | lia].
  - apply sample_first_match.
  - discriminate.
  - intros [H|[H|H]]; discriminate H.
Defined.

(** X14.  No authenticated report of a definition, an example or a mention
    succeeds, on any store: the answer is of type error (word not found, or
    the message of the [catch] block) and the Words of every shard are
    unchanged. *)
Theorem sub_record_report_never_succeeds session formData wt re st :
  has_user session = true ->
  ValidReportForm formData wt re ->
  sub_record_type re ->
  msg_type (message (fst (Report session formData st))) = error /\
  forall k, contents k (snd (Report session formData st)) = contents k st.
Proof.
  intros Hs Hv Hsub.
  destruct (Shard.findFirst (fun word => String.eqb (text word) wt)
              (contents (Js.slice 0 2 wt) st)) as [w|] eqn:Hf.
  - apply findFirst_Some in Hf as [i Hm].
    rewrite (Report_sub_record _ _ _ _ _ _ _ Hs Hv Hsub Hm). auto.
  - rewrite (Report_not_found _ _ _ _ _ Hs Hv Hf). split; [reflexivity|].
    intros k. apply contents_opened.
Qed.

Lemma sub_record_report_never_succeeds_witness :
  msg_type (message (fst (Report Sample.alice (Demo.report_of "test" "example")
                            Sample.store))) = error /\
  forall k,
    contents k (snd (Report Sample.alice (Demo.report_of "test" "example") Sample.store))
    = contents k Sample.store.
Proof.
  apply (sub_record_report_never_succeeds Sample.alice
           (Demo.report_of "test" "example") "test" "example" Sample.store).
  - reflexivity.
  - constructor; simpl; first [reflexivity | lia].
  - right; left; reflexivity.
Defined.

(** X15.  Whatever the session, the form and the store, a report changes
    at most one Word, and that one only by adding 2 to its [NV]: no Word is
    added or removed, and no [V], text or sub-record changes. *)
Theorem Report_changes_one_NV_at_most session formData st :
  exists k0 i0,
    forall k,
      length (contents k (snd (Report session formData st))) = length (contents k st) /\
      forall i w, contents k st !! i = Some w ->
        contents k (snd (Report session formData st)) !! i =
        Some (if decide (k = k0 /\ i = i0) then penalised w else w).
Proof.
  assert (Hsame : forall st', (forall k, contents k st' = contents k st) ->
    exists (k0 : string) (i0 : nat),
      forall k, length (contents k st') = length (contents k st) /\
        forall i w, contents k st !! i = Some w ->
          contents k st' !! i = Some (if decide (k = k0 /\ i = i0) then penalised w else w)).
  { intros st' H. exists "", (length (contents "" st)). intros k. rewrite H.
    split; [reflexivity|]. intros i w Hi.
    destruct (decide (k = "" /\ i = length (contents "" st))) as [[-> ->]|_];
      [|assumption].
    apply lookup_lt_Some in Hi. lia. }
  destruct (Report_cases session formData st)
    as [(_ & ->) | [(_ & _ & errs & _ & ->) | [(wt & re & _ & _ & _ & ->)
       | (wt & re & i & w & _ & _ & Hm & [(_ & ->) | [(_ & ->) | (_ & ->)]])]]];
    simpl; try (apply Hsame; intros k; reflexivity).
  - apply Hsame. intros k. apply contents_opened.
  - destruct Hm as (Hi & _). exists (Js.slice 0 2 wt), i. intros k.
    destruct (decide (Js.slice 0 2 wt = k)) as [<-|Hne].
    + rewrite contents_insert_eq. split; [apply length_insert|].
      intros j w' Hj. destruct (decide (i = j)) as [<-|Hij].
      * rewrite list_lookup_insert_eq by (now apply lookup_lt_Some in Hi).
        rewrite decide_True by auto. congruence.
      * rewrite list_lookup_insert_ne by assumption.
        rewrite decide_False by (intros [_ ?]; congruence). assumption.
    + rewrite contents_insert_ne by assumption. split; [reflexivity|].
      intros j w' Hj. rewrite decide_False by (intros [? _]; congruence). assumption.
Qed.

(** X16.  [reportElement] returns only for the element type [word].  For
    [definition] it throws on the unbound [element_id] as soon as the word
    has a definition, and on reading [NV] of [undefined] when it has none;
    for every other type it throws on the unbound [element], so that the
    collections of examples and mentions are never searched and the error
    [invalid usage] is never raised. *)
Theorem reportElement_outcomes w element_type :
  reportElement w element_type =
  if String.eqb element_type "word" then
    inr {| text := text w; definitions := definitions w; examples := examples w;
           mentions := mentions w; V := V w; NV := NV w + 2 |}
  else if String.eqb element_type "definition" then
    match definitions w with
    | [] => inl (Js.TypeError "Cannot read properties of undefined (reading 'NV')")
    | _ :: _ => inl (Js.ReferenceError "element_id")
    end
  else inl (Js.ReferenceError "element").
Proof.
  unfold reportElement.
  destruct (String.eqb element_type "word"); [reflexivity|].
  destruct (String.eqb element_type "definition"); [|reflexivity].
  rewrite findIndex_unbound. destruct (definitions w); reflexivity.
Qed.

(** ** One shard at a time *)

Lemma submitted_text_eq formData wt :
  FormData_get formData "word_text" = Some (FString wt) ->
  submitted_text formData = wt.
Proof. intros H. unfold submitted_text. now rewrite H. Qed.

(** X17.  No operation works across shards: the Words of every shard other
    than the one of the first two characters of the submitted [word_text]
    (lowercased by [addWord], as submitted by the other four) are
    unchanged. *)
Theorem operations_touch_one_shard op st k :
  k <> target_key op ->
  contents k (snd (run op st)) = contents k st.
Proof.
  intros Hk. destruct op as [fd|fd|fd|fd|session fd]; simpl in *.
  - destruct (addWord_cases fd st)
      as [(errs & _ & _ & ->) | [(wt & dc & dr & w & _ & _ & ->)
         | (wt & dc & dr & Hv & Hl & ->)]]; simpl; try reflexivity.
    rewrite (submitted_text_eq _ _ (vd_word_text _ _ _ _ Hv)) in Hk.
    apply contents_insert_ne. congruence.
  - destruct (addDefinition_cases fd st)
      as [(errs & _ & _ & ->) | [(wt & dc & dr & w & _ & _ & _ & ->)
         | (wt & dc & dr & Hv & _ & ->)]]; simpl; try reflexivity.
    rewrite (submitted_text_eq _ _ (vd_word_text _ _ _ _ Hv)) in Hk.
    apply contents_insert_ne. congruence.
  - destruct (addExample_cases fd st)
      as [(errs & _ & _ & ->) | (wt & et & er & Hv & ->)]; simpl; try reflexivity.
    rewrite (submitted_text_eq _ _ (ve_word_text _ _ _ _ Hv)) in Hk.
    apply contents_insert_ne. congruence.
  - destruct (addMention_cases fd st)
      as [(errs & _ & _ & ->) | (wt & ti & hl & Hv & ->)]; simpl; try reflexivity.
    rewrite (submitted_text_eq _ _ (vm_word_text _ _ _ _ Hv)) in Hk.
    apply contents_insert_ne. congruence.
  - destruct (Report_cases session fd st)
      as [(_ & ->) | [(_ & _ & errs & _ & ->) | [(wt & re & _ & Hv & _ & ->)
         | (wt & re & i & w & _ & Hv & Hm & [(_ & ->) | [(_ & ->) | (_ & ->)]])]]];
      simpl; try reflexivity.
    + apply contents_opened.
    + rewrite (submitted_text_eq _ _ (vr_word_text _ _ _ Hv)) in Hk.
      apply contents_insert_ne. congruence.
Qed.

Lemma operations_touch_one_shard_witness :
  contents "wa" (snd (run (OpAddWord Sample.add_test_again)
                        (snd (run (OpAddWord
                                     [ ("word_text", FString "walk");
                                       ("def_content", FString "to move at a regular pace");
                                       ("def_reference", FString "Oxford Dictionary") ])
                                  Sample.store))))
  = contents "wa" (snd (run (OpAddWord
                               [ ("word_text", FString "walk");
                                 ("def_content", FString "to move at a regular pace");
                                 ("def_reference", FString "Oxford Dictionary") ])
                            Sample.store)).
Proof.
  apply (operations_touch_one_shard (OpAddWord Sample.add_test_again)).
  discriminate.
Defined.

(** ** Stores reached from the empty store *)

(** X18.  In every store reached from the empty store by any sequence of
    the five operations, every stored text is in lower case (lowercasing it
    again changes nothing), is not empty and sits in the shard named by its
    first two characters. *)
Theorem reachable_store_is_canonical ops : canonical (run_all ops ∅).
Proof. apply (reachable_invariants ops ∅ empty_invariants). Qed.

(** X19.  In every store reached from the empty store by any sequence of
    the five operations, no two Words have the same text, within a shard
    or across shards. *)
Theorem reachable_store_has_unique_texts ops : unique_texts (run_all ops ∅).
Proof. apply (reachable_invariants ops ∅ empty_invariants). Qed.

(** X20.  In every store reached from the empty store by any sequence of
    the five operations, the definitions of one Word have pairwise distinct
    references. *)
Theorem reachable_store_has_distinct_references ops :
  distinct_references (run_all ops ∅).
Proof. apply (reachable_invariants ops ∅ empty_invariants). Qed.

(** X21.  In every store reached from the empty store by any sequence of
    the five operations, each stored Word, in whatever shard and at
    whatever position, is the one that a lookup of its text returns. *)
Theorem reachable_word_is_found ops k i w :
  contents k (run_all ops ∅) !! i = Some w ->
  lookup (text w) (run_all ops ∅) = Some w.
Proof.
  intros Hi.
  destruct (reachable_invariants ops ∅ empty_invariants) as (Hc & Hu & _).
  destruct (Hc _ _ _ Hi) as (Hlow & _ & Hk).
  unfold lookup. rewrite Hlow, Hk.
  destruct (Shard.findFirst (fun w0 => String.eqb (text w0) (text w))
              (contents k (run_all ops ∅))) as [w'|] eqn:Hf.
  - apply findFirst_Some in Hf as (j & Hj & Hp & _).
    apply String.eqb_eq in Hp.
    destruct (Hu _ _ _ _ _ _ Hj Hi Hp) as [_ ->]. congruence.
  - pose proof (proj1 (findFirst_None _ _) Hf i w Hi) as Hno. simpl in Hno.
    rewrite String.eqb_refl in Hno. discriminate.
Qed.

Lemma reachable_word_is_found_witness :
  lookup (text Sample.test_word) (run_all [OpAddWord Sample.add_test] ∅)
  = Some Sample.test_word.
Proof.
  apply (reachable_word_is_found [OpAddWord Sample.add_test] "te" 0%nat
           Sample.test_word).
  reflexivity.
Defined.

(** ** The views *)

(** X22.  The alert of the add-word form is green only when [addWord]
    stored the Word: the form was valid, the text was not stored before, a
    lookup of the text in the store that [addWord] leaves returns the new
    Word, and the alert is not destructive. *)
Theorem green_alert_means_stored formData st :
  (className <$> alert (AddWordForm (Some (fst (addWord formData st)))))
    = Some "border-green-600 text-green-600" ->
  exists wt dc dr,
    ValidDefinitionForm formData wt dc dr /\
    lookup wt st = None /\
    lookup wt (snd (addWord formData st)) =
      Some {| text := Js.toLowerCase wt;
              definitions := [ {| def_text := dc; def_reference := dr;
                                  def_V := 1; def_NV := 0 |} ];
              examples := [ {| ex_text := ""; ex_reference := "";
                               ex_V := 1; ex_NV := 0 |} ];
              mentions := [ {| men_title := ""; men_hyperlink := "";
                               men_V := 1; men_NV := 0 |} ];
              V := 1; NV := 0 |} /\
    (variant <$> alert (AddWordForm (Some (fst (addWord formData st))))) = Some None.
Proof.
  destruct (addWord_cases formData st)
    as [(errs & Hne & Hn & ->) | [(wt & dc & dr & w & Hv & Hl & ->)
       | (wt & dc & dr & Hv & Hl & ->)]]; simpl; try discriminate.
  intros _. exists wt, dc, dr. split; [assumption|]. split; [assumption|].
  split; [|reflexivity]. now apply lookup_after_add.
Qed.

Lemma green_alert_means_stored_witness :
  exists wt dc dr,
    ValidDefinitionForm Sample.add_test wt dc dr /\
    lookup wt ∅ = None /\
    lookup wt (snd (addWord Sample.add_test ∅)) =
      Some {| text := Js.toLowerCase wt;
              definitions := [ {| def_text := dc; def_reference := dr;
                                  def_V := 1; def_NV := 0 |} ];
              examples := [ {| ex_text := ""; ex_reference := "";
                               ex_V := 1; ex_NV := 0 |} ];
              mentions := [ {| men_title := ""; men_hyperlink := "";
                               men_V := 1; men_NV := 0 |} ];
              V := 1; NV := 0 |} /\
    (variant <$> alert (AddWordForm (Some (fst (addWord Sample.add_test ∅))))) = Some None.
Proof.
  apply (green_alert_means_stored Sample.add_test ∅).
  reflexivity.
Defined.

(** X23.  When a valid form names a text that is stored already, the
    add-word form shows [word already exists] under the word field and the
    warning in an alert that is neither destructive nor green. *)
Theorem AddWordForm_shows_duplicate formData wt dc dr st w :
  ValidDefinitionForm formData wt dc dr ->
  lookup wt st = Some w ->
  AddWordForm (Some (fst (addWord formData st))) =
  {| word_text_message := Some [custom "word already exists"];
     def_content_message := None;
     def_reference_message := None;
     alert := Some {| variant := None; className := "";
                      description := Js.toLowerCase wt ++ " already exists." |} |}.
Proof.
  intros Hv Hl. now rewrite (addWord_existing _ _ _ _ _ _ Hv Hl).
Qed.

Lemma AddWordForm_shows_duplicate_witness :
  AddWordForm (Some (fst (addWord Sample.add_test_again Sample.store))) =
  {| word_text_message := Some [custom "word already exists"];
     def_content_message := None;
     def_reference_message := None;
     alert := Some {| variant := None; className := "";
                      description := Js.toLowerCase "test" ++ " already exists." |} |}.
Proof.
  apply (AddWordForm_shows_duplicate Sample.add_test_again "test"
           "an examination of knowledge" "Cambridge Dictionary" Sample.store
           Sample.test_word).
  - constructor; simpl; first [reflexivity | lia].
  - vm_compute. reflexivity.
Defined.

(** X24.  The header and [Report] agree on who is logged in: the header
    offers [Logout] (and the [logout] action) exactly to the sessions whose
    reports are not answered with the login message. *)
Theorem header_agrees_with_Report session formData st :
  (button_text (RootLayout session) = "Logout" <->
   outcome (fst (Report session formData st)) <> Unauthorized) /\
  (form_action (RootLayout session) = logout <->
   outcome (fst (Report session formData st)) <> Unauthorized).
Proof.
  assert (outcome (fst (Report session formData st)) <> Unauthorized
          <-> has_user session = true) as ->.
  { destruct (Report_cases session formData st)
      as [(Hs & ->) | [(Hs & _ & errs & _ & ->) | [(wt & re & Hs & _ & _ & ->)
         | (wt & re & i & w & Hs & _ & _ & [(_ & ->) | [(_ & ->) | (_ & ->)]])]]];
      simpl; rewrite Hs.
    - split; [intros H; exfalso; apply H; reflexivity | discriminate].
    - split; [reflexivity | intros _; discriminate].
    - split; [reflexivity | intros _; discriminate].
    - split; [reflexivity | intros _; discriminate].
    - split; [reflexivity | intros _; discriminate].
    - split; [reflexivity | intros _; discriminate]. }
  unfold RootLayout. simpl. destruct (has_user session); split; split;
    first [reflexivity | discriminate].
Qed.
